(** * Global Coffee Health dashboard (coffee2.py): model and properties

    The dashboard is one Streamlit script.  It loads a CSV file into a
    pandas DataFrame, filters it with three sidebar selections, stops with
    a warning when nothing is left, and otherwise derives a stress index
    and renders KPI numbers and charts in five tabs.

    Conventions of the embedding:
    - a DataFrame is the list of its rows, in index order, together with
      the derived columns the script adds later ([Stress_Index],
      [Activity_Bins]), which are absent until they are assigned; the
      columns read from the CSV file have no missing cell;
    - a numeric cell of the table is given by the number it holds, a
      rational ([Q]); comparisons ([pd.cut], Python's [min] and [max]) and
      the group-by means are taken on these numbers;
    - the KPI means, their rounding and the correlation matrix are
      computed as numpy and pandas compute them, in binary64: the cells
      become Rocq's primitive floats ([to_float]), sums follow numpy's
      pairwise order, and NaN is the float [nan];
    - the objects of the script live in a heap and its names point into
      it, so that changing an object in place and rebinding a name are
      told apart;
    - the widgets ([multiselect], [slider], [selectbox]) give back what the
      user picked: their results are inputs of the model, and the model of
      the script starts at line 34, after they returned. *)

From Stdlib Require Import ZArith QArith Psatz List String Floats.
From stdpp Require Import gmap strings list fin_maps sorting.
Import ListNotations.

Local Open Scope string_scope.
Local Open Scope Z_scope.

(** ** The dataset *)

(** One line of [synthetic_coffee_health_10000.csv], with the columns the
    script reads. *)
Record row := {
  Country : string;
  Gender : string;
  Age : Z;
  Coffee_Intake : Q;
  Sleep_Hours : Q;
  Stress_Level : string;
  Heart_Rate : Q;
  BMI : Q;
  Occupation : string;
  Smoking : Z;
  Alcohol_Consumption : Z;
  Physical_Activity_Hours : Q
}.

(** A DataFrame over that schema.  [Stress_Index] and [Activity_Bins] are the
    columns lines 47 and 187 assign; [None] means the column does not exist
    yet, and a cell of an existing column may be missing (NaN). *)
Record DataFrame := {
  records : list row;
  Stress_Index : option (list (option Z));
  Activity_Bins : option (list (option string))
}.

(** [df[name]] for a column of the CSV. *)
Definition column {A : Type} (name : row -> A) (df : DataFrame) : list A :=
  List.map name (records df).

(** [df.empty]: no rows. *)
Definition empty (df : DataFrame) : bool :=
  match records df with [] => true | _ :: _ => false end.

(** ** pandas Series operations used by the filter *)

(** [s.isin(values)] on a string column. *)
Definition isin (s : list string) (values : list string) : list bool :=
  List.map (fun x => existsb (String.eqb x) values) s.

(** [s >= v] and [s <= v] on an integer column. *)
Definition ge (s : list Z) (v : Z) : list bool := List.map (fun x => v <=? x) s.
Definition le (s : list Z) (v : Z) : list bool := List.map (fun x => x <=? v) s.

(** [a & b] on two boolean Series over the same index. *)
Fixpoint series_and (a b : list bool) : list bool :=
  match a, b with
  | x :: a', y :: b' => (x && y) :: series_and a' b'
  | _, _ => []
  end.

(** Boolean indexing of a list of cells: keep the positions where the mask
    is [True]. *)
Fixpoint take_mask {A : Type} (l : list A) (mask : list bool) : list A :=
  match l, mask with
  | x :: l', b :: mask' =>
      if b then x :: take_mask l' mask' else take_mask l' mask'
  | _, _ => []
  end.

(** [df[mask]]: a new frame holding the selected rows of every column. *)
Definition getitem_mask (df : DataFrame) (mask : list bool) : DataFrame :=
  {| records := take_mask (records df) mask;
     Stress_Index := option_map (fun c => take_mask c mask) (Stress_Index df);
     Activity_Bins := option_map (fun c => take_mask c mask) (Activity_Bins df) |}.

(** Lines 34-37: the mask built from the three sidebar selections. *)
Definition filter_mask (data : DataFrame) (countries genders : list string)
    (age_range : Z * Z) : list bool :=
  series_and
    (series_and
       (series_and (isin (column Country data) countries)
                   (isin (column Gender data) genders))
       (ge (column Age data) (fst age_range)))
    (le (column Age data) (snd age_range)).

Definition filtered_data (data : DataFrame) (countries genders : list string)
    (age_range : Z * Z) : DataFrame :=
  getitem_mask data (filter_mask data countries genders age_range).

(** [df.copy()]: same contents, new object. *)
Definition copy (df : DataFrame) : DataFrame := df.

(** ** Derived fields *)

(** Line 46: the dict from stress level to stress index. *)
Definition stress_level_mapping : gmap string Z :=
  <["Low" := 1]> (<["Medium" := 2]> (<["High" := 3]> ∅)).

(** [s.map(d)] with a dict: a key the dict lacks gives a missing cell. *)
Definition series_map (s : list string) (d : gmap string Z) : list (option Z) :=
  List.map (fun x => d !! x) s.

(** [df['Stress_Index'] = values]: the frame with that column set. *)
Definition setitem_Stress_Index (df : DataFrame) (values : list (option Z)) :
    DataFrame :=
  {| records := records df;
     Stress_Index := Some values;
     Activity_Bins := Activity_Bins df |}.

(** [df['Activity_Bins'] = values]. *)
Definition setitem_Activity_Bins (df : DataFrame)
    (values : list (option string)) : DataFrame :=
  {| records := records df;
     Stress_Index := Stress_Index df;
     Activity_Bins := Some values |}.

(** [bins.searchsorted(x, side='left')]: the first position whose
    breakpoint is not below [x] (the number of breakpoints below [x], the
    breakpoints being ascending). *)
Fixpoint searchsorted_left (bins : list Q) (x : Q) : nat :=
  match bins with
  | [] => O
  | b :: bins' => if Qlt_le_dec b x then S (searchsorted_left bins' x) else O
  end.

(** [pd.cut(x, bins, labels)] on one value, with the defaults [right=True]
    and [include_lowest=False]: a value at position 0 or past the last
    breakpoint is masked, the others take the label before their position. *)
Definition cut (x : Q) (bins : list Q) (labels : list string) : option string :=
  let ids := searchsorted_left bins x in
  if (Nat.eqb ids (length bins) || Nat.eqb ids O)%bool then None
  else labels !! (ids - 1)%nat.

(** Lines 189-190. *)
Definition activity_bins : list Q := [0; 2; 4; 6; 24]%Q.
Definition activity_labels : list string := ["0-2h"; "2-4h"; "4-6h"; "6h+"].

Definition Activity_Bin (hours : Q) : option string :=
  cut hours activity_bins activity_labels.

(** ** Series as float64 arrays *)

(** An integer column seen as float64. *)
Definition as_float (s : list (option Z)) : list (option Q) :=
  List.map (option_map inject_Z) s.

(** A column without missing cells as a float64 Series. *)
Definition present (s : list Q) : list (option Q) := List.map Some s.

(** An int64 as a float64 (the conversion of C; exact below 2^53). *)
Definition float_of_int (z : Z) : float :=
  if z <? 0 then (- of_uint63 (Uint63.of_Z (- z)))%float
  else of_uint63 (Uint63.of_Z z).

(** A count of cells as a float64. *)
Definition float_of_count (n : nat) : float := float_of_int (Z.of_nat n).

(** The float64 that holds the number [q]: the quotient of the numerator
    by the denominator of its reduced fraction, rounded once (the
    binary64 number nearest to [q] when both are below 2^53, as for a
    decimal of up to 15 digits). *)
Definition to_float (q : Q) : float :=
  let r := Qred q in
  (float_of_int (Qnum r) / float_of_int (Zpos (Qden r)))%float.

(** The float64 array behind a Series: NaN for a missing cell. *)
Definition cell (c : option Q) : float :=
  match c with
  | Some q => to_float q
  | None => nan
  end.

Definition to_numpy (s : list (option Q)) : list float := List.map cell s.

(** The array behind a column of the CSV file. *)
Definition float64 (s : list Q) : list float := List.map to_float s.

(** ** Sums (numpy's [add.reduce])

    numpy adds the cells of a float64 array pairwise: fewer than 8 cells
    one after the other, up to 128 cells with eight running sums that
    are combined at the end, more cells by halves. *)

(** The unrolled loop over whole blocks of eight cells: the eight running
    sums [r] take one cell each. *)
Fixpoint unrolled_loop (blocks : nat) (r a : list float) :
    list float * list float :=
  match blocks with
  | O => (r, a)
  | S k => unrolled_loop k (zip_with PrimFloat.add r (take 8 a)) (drop 8 a)
  end.

(** 8 to 128 cells. *)
Definition pairwise_block (a : list float) : float :=
  let '(r, rest) :=
    unrolled_loop (length a / 8 - 1)%nat (take 8 a) (drop 8 a) in
  let res :=
    match r with
    | [r0; r1; r2; r3; r4; r5; r6; r7] =>
        (((r0 + r1) + (r2 + r3)) + ((r4 + r5) + (r6 + r7)))%float
    | _ => nan
    end in
  fold_left PrimFloat.add rest res.

(** [pairwise_sum]; [fuel] bounds the depth of the halving, and the
    length of the array is enough of it. *)
Fixpoint pairwise_sum (fuel : nat) (a : list float) : float :=
  let n := length a in
  if (n <? 8)%nat then fold_left PrimFloat.add a neg_zero
  else if (n <=? 128)%nat then pairwise_block a
  else
    match fuel with
    | O => nan
    | S fuel' =>
        let n2 := (n / 2 - (n / 2) mod 8)%nat in
        (pairwise_sum fuel' (take n2 a) + pairwise_sum fuel' (drop n2 a))%float
    end.

(** [a.sum()] on a float64 array: the pairwise sum is added to the
    initial value 0. *)
Definition np_sum (a : list float) : float :=
  (zero + pairwise_sum (length a) a)%float.

(** [a.sum(dtype=float64)] on an int64 array: the cells are cast buffer by
    buffer (8192 cells), and the pairwise sum of each buffer is added to
    the result. *)
Definition buffersize : nat := Nat.pow 2 13.

Fixpoint buffers (fuel : nat) (a : list Z) : list (list Z) :=
  match a, fuel with
  | [], _ => []
  | _ :: _, O => [a]
  | _ :: _, S fuel' => take buffersize a :: buffers fuel' (drop buffersize a)
  end.

Definition np_sum_cast (a : list Z) : float :=
  fold_left
    (fun res buffer =>
       (res + pairwise_sum (length buffer) (List.map float_of_int buffer))%float)
    (buffers (length a) a) zero.

(** ** Means and rounding *)

(** [values[mask] = 0] for the mask of the NaN cells. *)
Definition fillna (s : list float) : list float :=
  List.map (fun x => if is_nan x then zero else x) s.

(** The cells that are not NaN, and their number. *)
Definition notna (s : list float) : list float :=
  List.filter (fun x => negb (is_nan x)) s.

Definition count (s : list float) : nat := length (notna s).

(** [s.mean()] on a float64 Series with the default [skipna=True]
    ([nanops.nanmean]): the NaN cells are filled with 0 for the sum, and
    the sum is divided by the number of the other cells; NaN when there
    is none. *)
Definition mean (s : list float) : float :=
  if (0 <? count s)%nat then (np_sum (fillna s) / float_of_count (count s))%float
  else nan.

(** [s.mean()] on an int64 Series: no cell is missing. *)
Definition mean_int64 (s : list Z) : float :=
  if (0 <? length s)%nat then (np_sum_cast s / float_of_count (length s))%float
  else nan.

(** [rint]: the nearest integer, ties to the even one, the sign kept. *)
Definition rint (x : float) : float :=
  match Prim2SF x with
  | S754_finite s m e =>
      if 0 <=? e then x
      else
        let scale := 2 ^ (- e) in
        let q := Zpos m / scale in
        let z := match 2 * (Zpos m mod scale) ?= scale with
                 | Lt => q
                 | Gt => q + 1
                 | Eq => if Z.even q then q else q + 1
                 end in
        if s then (- float_of_int z)%float else float_of_int z
  | _ => x
  end.

(** [round(x, 2)] on a numpy float64: [rint(x * 100) / 100]. *)
Definition round2 (x : float) : float := (rint (x * 100) / 100)%float.

(** ** Group-by means *)

Section groupby.
Context {K : Type} `{Countable K}.
Variable order : K -> K -> Prop.
Context `{forall a b, Decision (order a b)}.

(** The group keys: the distinct values of the key column, sorted
    ([groupby] has [sort=True] by default). *)
Definition group_keys (keys : list K) : list K :=
  merge_sort order (remove_dups keys).

(** One row of the aggregation pass: the sum and the number of present
    cells of the row's group are updated in place. *)
Definition group_step (acc : gmap K (Q * nat)) (kv : K * option Q) :
    gmap K (Q * nat) :=
  let sn := default (0%Q, O) (acc !! kv.1) in
  match kv.2 with
  | Some x => <[kv.1 := ((sn.1 + x)%Q, S sn.2)]> acc
  | None => <[kv.1 := sn]> acc
  end.

Definition group_sums (keys : list K) (values : list (option Q)) :
    gmap K (Q * nat) :=
  fold_left group_step (zip keys values) ∅.

(** The mean of one group from its accumulators; NaN for no present
    cell. *)
Definition group_quotient (sn : Q * nat) : option Q :=
  match sn.2 with
  | O => None
  | S _ as n => Some (sn.1 / inject_Z (Z.of_nat n))%Q
  end.

(** [df.groupby(key)[value].mean()] as a function from group key to
    mean. *)
Definition group_mean (keys : list K) (values : list (option Q)) (k : K) :
    option Q :=
  group_quotient (default (0%Q, O) (group_sums keys values !! k)).

(** [df.groupby(key)[value].mean().reset_index()]: one row per group, in
    key order. *)
Definition groupby_mean (keys : list K) (values : list (option Q)) :
    list (K * option Q) :=
  List.map (fun k => (k, group_mean keys values k)) (group_keys keys).

(** The same over two value columns. *)
Definition groupby_mean2 (keys : list K) (v1 v2 : list (option Q)) :
    list (K * option Q * option Q) :=
  List.map (fun k => (k, group_mean keys v1 k, group_mean keys v2 k))
           (group_keys keys).
End groupby.

(** Orders of the group keys: integers, strings, pairs of strings. *)
Definition string_le (a b : string) : Prop := String.leb a b = true.

Definition pair_le (a b : string * string) : Prop :=
  match String.compare a.1 b.1 with
  | Lt => True
  | Eq => string_le a.2 b.2
  | Gt => False
  end.

#[global] Instance string_le_dec a b : Decision (string_le a b).
Proof. unfold string_le. apply _. Defined.

#[global] Instance pair_le_dec a b : Decision (pair_le a b).
Proof. unfold pair_le. destruct (String.compare a.1 b.1); apply _. Defined.

(** Line 105: mean coffee intake per country. *)
Definition country_avg (df : DataFrame) : list (string * option Q) :=
  groupby_mean string_le (column Country df) (present (column Coffee_Intake df)).

(** Line 144: mean coffee intake per occupation and gender. *)
Definition occupation_avg (df : DataFrame) :
    list ((string * string) * option Q) :=
  groupby_mean pair_le
    (List.map (fun r => (Occupation r, Gender r)) (records df))
    (present (column Coffee_Intake df)).

(** Line 221: mean coffee intake and mean sleep hours per age. *)
Definition age_trend (df : DataFrame) : list (Z * option Q * option Q) :=
  groupby_mean2 Z.le (column Age df)
    (present (column Coffee_Intake df)) (present (column Sleep_Hours df)).

(** ** Pearson correlation

    [DataFrame.corr()] with its defaults ([method='pearson'],
    [min_periods=1]), in binary64: for every pair of columns one pass of
    Welford's update over the rows where both cells are finite, then the
    covariance term over the square root of the product of the two
    sums of squared deviations, clipped to [-1, 1].  The pass visits the
    pairs with [yi <= xi] and writes each result at [xi, yi] and at
    [yi, xi]. *)

Record welford := {
  nobs : nat;
  meanx : float;
  meany : float;
  ssqdm_x : float;
  ssqdm_y : float;
  covxy : float
}.

Definition welford_init : welford :=
  {| nobs := O; meanx := zero; meany := zero; ssqdm_x := zero;
     ssqdm_y := zero; covxy := zero |}.

(** One row of the pass; a row with a cell that is NaN or infinite is
    skipped. *)
Definition welford_step (w : welford) (cells : float * float) : welford :=
  let vx := cells.1 in
  let vy := cells.2 in
  if is_finite vx && is_finite vy then
    let n := S (nobs w) in
    let dx := (vx - meanx w)%float in
    let dy := (vy - meany w)%float in
    let mx := (meanx w + one / float_of_count n * dx)%float in
    let my := (meany w + one / float_of_count n * dy)%float in
    {| nobs := n;
       meanx := mx;
       meany := my;
       ssqdm_x := (ssqdm_x w + (vx - mx) * dx)%float;
       ssqdm_y := (ssqdm_y w + (vy - my) * dy)%float;
       covxy := (covxy w + (vx - mx) * dy)%float |}
  else w.

Definition welford_pass (x y : list float) : welford :=
  fold_left welford_step (zip x y) welford_init.

(** The coefficient from the sums of a pass: NaN for no row, and for a
    divisor that compares equal to 0. *)
Definition coefficient (w : welford) : float :=
  if (nobs w <? 1)%nat then nan
  else
    let divisor := sqrt (ssqdm_x w * ssqdm_y w) in
    if (divisor =? zero)%float then nan
    else
      let val := (covxy w / divisor)%float in
      if (one <? val)%float then one
      else if (val <? - one)%float then (- one)%float
      else val.

Definition nancorr_pair (x y : list float) : float :=
  coefficient (welford_pass x y).

(** The entry written at [xi, yi]. *)
Definition nancorr_entry (mat : list (list float)) (xi yi : nat) : float :=
  let col i := default [] (mat !! i) in
  if (yi <=? xi)%nat then nancorr_pair (col xi) (col yi)
  else nancorr_pair (col yi) (col xi).

(** The whole matrix, as a list of rows. *)
Definition nancorr (mat : list (list float)) : list (list float) :=
  let k := seq 0 (length mat) in
  List.map (fun xi => List.map (fun yi => nancorr_entry mat xi yi) k) k.

(** Line 215, the column selection
    [df[['Coffee_Intake','Sleep_Hours','Stress_Index','Heart_Rate','BMI']]]:
    a [KeyError] ([None]) while [Stress_Index] has not been assigned. *)
Definition corr_columns (df : DataFrame) : option (list (list (option Q))) :=
  match Stress_Index df with
  | None => None
  | Some si =>
      Some [ present (column Coffee_Intake df);
             present (column Sleep_Hours df);
             as_float si;
             present (column Heart_Rate df);
             present (column BMI df) ]
  end.

(** Line 215. *)
Definition corr (df : DataFrame) : option (list (list float)) :=
  option_map (fun cols => nancorr (List.map to_numpy cols)) (corr_columns df).

(** [s.nunique() > 1]: two present cells of the column differ. *)
Fixpoint first_present (s : list (option Q)) : option Q :=
  match s with
  | [] => None
  | Some v :: _ => Some v
  | None :: s' => first_present s'
  end.

Definition varies (s : list (option Q)) : bool :=
  match first_present s with
  | None => false
  | Some v =>
      existsb (fun c => match c with
                        | Some w => negb (Qeq_bool v w)
                        | None => false
                        end) s
  end.

(** ** The script: objects, names, page *)

(** What a name of the script can be bound to. *)
Inductive object :=
| ODataFrame (df : DataFrame)
| OCountryAvg (t : list (string * option Q))
| OOccupationAvg (t : list ((string * string) * option Q))
| OCorr (m : list (list float))
| OAgeTrend (t : list (Z * option Q * option Q)).

(** A plotly figure, with the data it draws. *)
Inductive figure :=
| px_scatter (df : DataFrame) (y : string)
| px_bar (t : list ((string * string) * option Q))
| px_violin (df : DataFrame) (x : string)
| px_line (t : list (Z * option Q * option Q)).

(** What the script puts on the page. *)
Inductive element :=
| st_warning (body : string)
| st_tabs (labels : list string)
| st_subheader (body : string)
| st_metric (label : string) (value : float)
| st_selectbox (label : string) (options : list string)
| st_expander (label : string)
| st_plotly_chart (fig : figure)
| st_pyplot (heatmap : list (list float))
| st_markdown (body : string).

(** How a run ends early: [st.stop()], or an exception. *)
Inductive exception :=
| StopException
| NameError (name : string)
| KeyError (key : string)
| TypeError.

(** The objects live in a heap and the module's names point into it, so
    that two names may share one object. *)
Record state := {
  heap : list object;
  globals : gmap string nat;
  page : list element
}.

Definition M (A : Type) : Type := state -> (exception + A) * state.

Definition ret {A : Type} (x : A) : M A := fun s => (inr x, s).

Definition bind {A B : Type} (m : M A) (f : A -> M B) : M B := fun s =>
  match m s with
  | (inl e, s') => (inl e, s')
  | (inr x, s') => f x s'
  end.

Notation "'let*' x ':=' m 'in' k" := (bind m (fun x => k))
  (at level 10, x pattern, m at level 100, k at level 200).
Notation "m ;; k" := (bind m (fun _ => k))
  (at level 100, k at level 200, right associativity).

Definition raise {A : Type} (e : exception) : M A := fun s => (inl e, s).

(** A new object at the end of the heap. *)
Definition alloc (o : object) : M nat := fun s =>
  (inr (length (heap s)),
   {| heap := heap s ++ [o]; globals := globals s; page := page s |}).

(** [name = <object at a>]. *)
Definition assign (name : string) (a : nat) : M unit := fun s =>
  (inr tt,
   {| heap := heap s; globals := <[name := a]> (globals s); page := page s |}).

(** Reading a name. *)
Definition name_ (name : string) : M nat := fun s =>
  match globals s !! name with
  | Some a => (inr a, s)
  | None => (inl (NameError name), s)
  end.

(** Reading a name that must hold a DataFrame. *)
Definition frame (name : string) : M (nat * DataFrame) :=
  let* a := name_ name in
  fun s => match heap s !! a with
           | Some (ODataFrame df) => (inr (a, df), s)
           | _ => (inl TypeError, s)
           end.

(** Reading a name, whatever it holds. *)
Definition object_ (name : string) : M object :=
  let* a := name_ name in
  fun s => match heap s !! a with
           | Some o => (inr o, s)
           | None => (inl TypeError, s)
           end.

(** Changing the object at [a] in place. *)
Definition mutate (a : nat) (o : object) : M unit := fun s =>
  (inr tt,
   {| heap := <[a := o]> (heap s); globals := globals s; page := page s |}).

(** Adding an element to the page. *)
Definition emit (e : element) : M unit := fun s =>
  (inr tt,
   {| heap := heap s; globals := globals s; page := page s ++ [e] |}).

(** The state once line 24 has bound [data] to the loaded frame. *)
Definition loaded (data : DataFrame) : state :=
  {| heap := [ODataFrame data]; globals := {["data" := O]}; page := [] |}.

(** ** The operations of the script *)

Inductive operation :=
| Filter (countries genders : list string) (age_range : Z * Z)
| Copy
| Derive_Stress_Index
| Derive_Activity_Bins
| Kpi_means
| Country_avg
| Occupation_avg
| Corr
| Age_trend.

(** Lines 60-63: the four KPI numbers. *)
Definition kpi_coffee (df : DataFrame) : float :=
  round2 (mean (float64 (column Coffee_Intake df))).

Definition kpi_sleep (df : DataFrame) : float :=
  round2 (mean (float64 (column Sleep_Hours df))).

(** The [Stress_Index] column as [Series.map] leaves it: int64 when every
    level was found in the dict, float64 with NaN otherwise. *)
Definition stress_array (stress_index : list (option Z)) : list float :=
  List.map (fun c => match c with
                     | Some z => float_of_int z
                     | None => nan
                     end) stress_index.

Definition mean_Stress_Index (stress_index : list (option Z)) : float :=
  if forallb (fun c => bool_decide (is_Some c)) stress_index
  then mean_int64 (omap (fun c => c) stress_index)
  else mean (stress_array stress_index).

Definition kpi_stress (stress_index : list (option Z)) : float :=
  round2 (mean_Stress_Index stress_index).

Definition kpi_bmi (df : DataFrame) : float :=
  round2 (mean (float64 (column BMI df))).

Definition run_operation (op : operation) : M unit :=
  match op with
  | Filter countries genders age_range =>
      (* filtered_data = data[...] *)
      let* d := frame "data" in
      let* a := alloc (ODataFrame
                         (filtered_data d.2 countries genders age_range)) in
      assign "filtered_data" a
  | Copy =>
      (* filtered_data = filtered_data.copy() *)
      let* f := frame "filtered_data" in
      let* a := alloc (ODataFrame (copy f.2)) in
      assign "filtered_data" a
  | Derive_Stress_Index =>
      (* filtered_data['Stress_Index'] =
           filtered_data['Stress_Level'].map(stress_level_mapping) *)
      let* f := frame "filtered_data" in
      mutate f.1
        (ODataFrame
           (setitem_Stress_Index f.2
              (series_map (column Stress_Level f.2) stress_level_mapping)))
  | Derive_Activity_Bins =>
      (* filtered_data['Activity_Bins'] = pd.cut(...) *)
      let* f := frame "filtered_data" in
      mutate f.1
        (ODataFrame
           (setitem_Activity_Bins f.2
              (List.map Activity_Bin (column Physical_Activity_Hours f.2))))
  | Kpi_means =>
      let* f := frame "filtered_data" in
      emit (st_metric "平均咖啡摄入量 (cups/day)" (kpi_coffee f.2)) ;;
      emit (st_metric "平均睡眠时长 (hours/day)" (kpi_sleep f.2)) ;;
      match Stress_Index f.2 with
      | None => raise (KeyError "Stress_Index")
      | Some si =>
          emit (st_metric "平均压力指数" (kpi_stress si)) ;;
          emit (st_metric "平均 BMI" (kpi_bmi f.2))
      end
  | Country_avg =>
      let* f := frame "filtered_data" in
      let* a := alloc (OCountryAvg (country_avg f.2)) in
      assign "country_avg" a
  | Occupation_avg =>
      let* f := frame "filtered_data" in
      let* a := alloc (OOccupationAvg (occupation_avg f.2)) in
      assign "occupation_avg" a
  | Corr =>
      let* f := frame "filtered_data" in
      match corr f.2 with
      | None => raise (KeyError "Stress_Index")
      | Some m =>
          let* a := alloc (OCorr m) in
          assign "corr" a
      end
  | Age_trend =>
      let* f := frame "filtered_data" in
      let* a := alloc (OAgeTrend (age_trend f.2)) in
      assign "age_trend" a
  end.

Fixpoint run_operations (ops : list operation) : M unit :=
  match ops with
  | [] => ret tt
  | op :: ops' => run_operation op ;; run_operations ops'
  end.

(** ** The script, from line 34 on *)

(** What the widgets gave back. *)
Record inputs := {
  countries : list string;
  genders : list string;
  age_range : Z * Z;
  health_metric : string;
  habit : string
}.

Definition empty_notice : string :=
  "⚠️ 当前筛选条件下没有数据，请调整条件。".

(** Lines 57-63. *)
Definition tab1 : M unit :=
  emit (st_subheader "关键指标 (KPI)") ;;
  run_operation Kpi_means.

(** Lines 68-98. *)
Definition tab2 (inp : inputs) : M unit :=
  emit (st_subheader "咖啡摄入 vs 健康指标") ;;
  emit (st_selectbox "选择健康指标"
          ["Sleep_Hours"; "Stress_Index"; "Heart_Rate"; "BMI"]) ;;
  let* f := frame "filtered_data" in
  emit (st_plotly_chart (px_scatter f.2 (health_metric inp))).

(** Lines 103-133.  [data_list] and [option] (lines 106-130) are plain
    values built from [country_avg] for the call of line 133; the name
    [st_echarts] is bound nowhere in the module, so that call raises. *)
Definition tab3 : M unit :=
  emit (st_subheader "全球平均咖啡消费热力图") ;;
  run_operation Country_avg ;;
  raise (NameError "st_echarts").

(** Lines 137-208. *)
Definition tab4 (inp : inputs) : M unit :=
  emit (st_subheader "职业与咖啡摄入对比") ;;
  run_operation Occupation_avg ;;
  let* o := object_ "occupation_avg" in
  match o with
  | OOccupationAvg t => emit (st_plotly_chart (px_bar t))
  | _ => raise TypeError
  end ;;
  let* f := frame "filtered_data" in
  emit (st_expander "展开查看：职业与咖啡摄入分布（小提琴图）") ;;
  emit (st_plotly_chart (px_violin f.2 "Occupation")) ;;
  emit (st_subheader "咖啡与生活习惯分析") ;;
  emit (st_selectbox "选择生活习惯指标"
          ["Smoking"; "Alcohol_Consumption"; "Physical_Activity_Hours"]) ;;
  let* x_var :=
    if String.eqb (habit inp) "Physical_Activity_Hours"
    then run_operation Derive_Activity_Bins ;; ret "Activity_Bins"
    else ret (habit inp) in
  let* f := frame "filtered_data" in
  emit (st_plotly_chart (px_violin f.2 x_var)).

(** Lines 213-224. *)
Definition tab5 : M unit :=
  emit (st_subheader "健康指标相关性热力图") ;;
  run_operation Corr ;;
  let* o := object_ "corr" in
  match o with
  | OCorr m => emit (st_pyplot m)
  | _ => raise TypeError
  end ;;
  emit (st_subheader "不同年龄段咖啡摄入与睡眠趋势") ;;
  run_operation Age_trend ;;
  let* o := object_ "age_trend" in
  match o with
  | OAgeTrend t => emit (st_plotly_chart (px_line t))
  | _ => raise TypeError
  end.

(** Lines 229-231. *)
Definition footer : M unit :=
  emit (st_markdown "---") ;;
  emit (st_markdown "数据来源：Global Coffee Health Dataset (Synthetic)") ;;
  emit (st_markdown "作者： Name").

Definition script (inp : inputs) : M unit :=
  run_operation (Filter (countries inp) (genders inp) (age_range inp)) ;;
  let* f := frame "filtered_data" in
  (if empty f.2
   then emit (st_warning empty_notice) ;; raise StopException
   else ret tt) ;;
  run_operation Copy ;;
  run_operation Derive_Stress_Index ;;
  emit (st_tabs ["📊 KPI 概览"; "🔍 健康分析"; "🌍 全球地图"; "📦 分类分析";
                 "📈 深度探索"]) ;;
  tab1 ;;
  tab2 inp ;;
  tab3 ;;
  tab4 inp ;;
  tab5 ;;
  footer.

(** A run of the script on a loaded dataset. *)
Definition run (data : DataFrame) (inp : inputs) :
    (exception + unit) * state :=
  script inp (loaded data).

(** ** States of a run *)

(** The state after lines 34-37. *)
Definition after_filter (data : DataFrame) (inp : inputs) : state :=
  {| heap := [ODataFrame data;
              ODataFrame (filtered_data data (countries inp) (genders inp)
                                        (age_range inp))];
     globals := <["filtered_data" := 1%nat]> {["data" := 0%nat]};
     page := [] |}.

(** The state in which a run ends when the filter leaves nothing. *)
Definition stopped (data : DataFrame) (inp : inputs) : state :=
  {| heap := heap (after_filter data inp);
     globals := globals (after_filter data inp);
     page := [st_warning empty_notice] |}.

(** The table on which the tabs work: the filtered table, copied, with its
    stress index (lines 45-47). *)
Definition derived (fd : DataFrame) : DataFrame :=
  setitem_Stress_Index (copy fd)
    (series_map (column Stress_Level (copy fd)) stress_level_mapping).

(** The state in which a run ends when the filter leaves some row: the
    call of line 133 raises after the first two tabs were drawn. *)
Definition raised (data : DataFrame) (inp : inputs) : state :=
  let fd := filtered_data data (countries inp) (genders inp) (age_range inp) in
  {| heap := [ODataFrame data; ODataFrame fd; ODataFrame (derived fd);
              OCountryAvg (country_avg (derived fd))];
     globals := <["country_avg" := 3%nat]>
                  (<["filtered_data" := 2%nat]>
                     (<["filtered_data" := 1%nat]> {["data" := 0%nat]}));
     page := [ st_tabs ["📊 KPI 概览"; "🔍 健康分析"; "🌍 全球地图";
                        "📦 分类分析"; "📈 深度探索"];
               st_subheader "关键指标 (KPI)";
               st_metric "平均咖啡摄入量 (cups/day)" (kpi_coffee (derived fd));
               st_metric "平均睡眠时长 (hours/day)" (kpi_sleep (derived fd));
               st_metric "平均压力指数"
                 (kpi_stress (series_map (column Stress_Level fd)
                                         stress_level_mapping));
               st_metric "平均 BMI" (kpi_bmi (derived fd));
               st_subheader "咖啡摄入 vs 健康指标";
               st_selectbox "选择健康指标"
                 ["Sleep_Hours"; "Stress_Index"; "Heart_Rate"; "BMI"];
               st_plotly_chart (px_scatter (derived fd) (health_metric inp));
               st_subheader "全球平均咖啡消费热力图" ] |}.

(** ** Reference definitions

    What the properties below compare the code with. *)

(** The mask of lines 34-37, row by row. *)
Definition keeps (countries genders : list string) (age_range : Z * Z)
    (r : row) : bool :=
  existsb (String.eqb (Country r)) countries
  && existsb (String.eqb (Gender r)) genders
  && (age_range.1 <=? Age r)
  && (Age r <=? age_range.2).







(** The reference mean of the specification on float64 cells: the cells
    that are numbers are added one after the other, from 0, and the sum
    is divided by their number. *)
Definition naive_sum (a : list float) : float := fold_left PrimFloat.add a zero.

Definition naive_mean_float (s : list float) : float :=
  match notna s with
  | [] => nan
  | (_ :: _) as cells =>
      (naive_sum cells / float_of_count (length cells))%float
  end.

(** The rows with a stress level the mapping knows, and their indices. *)
Definition recognized (r : row) : bool :=
  bool_decide (Stress_Level r ∈ ["Low"; "Medium"; "High"]).

Definition stress_indices (rows : list row) : list Z :=
  List.map (fun r => default 0 (stress_level_mapping !! Stress_Level r))
           (List.filter recognized rows).

(** The sum of a list of integers. *)
Definition total (zs : list Z) : Z := fold_right Z.add 0 zs.


(** The entry of a matrix at row [i] and column [j], when there is one. *)
Definition matrix_entry (m : list (list float)) (i j : nat) : option float :=
  match m !! i with
  | Some line => line !! j
  | None => None
  end.



(** What an element shows of the computations after the guard. *)
Definition shows_result (e : element) : bool :=
  match e with
  | st_metric _ _ | st_plotly_chart _ | st_pyplot _ => true
  | _ => false
  end.

(** The objects the computations after the guard create. *)
Definition is_aggregate (o : object) : bool :=
  match o with
  | ODataFrame _ => false
  | _ => true
  end.

Definition is_warning (e : element) : bool :=
  match e with st_warning _ => true | _ => false end.

(** ** The frame condition *)

(** The loaded table sits where line 24 put it, [data] names it, and no
    other name does. *)
Definition source_kept (data : DataFrame) (s : state) : Prop :=
  heap s !! 0%nat = Some (ODataFrame data)
  /\ globals s !! "data" = Some 0%nat
  /\ forall name : string, name <> "data" -> globals s !! name <> Some 0%nat.

(** A computation that keeps the loaded table whatever it does and however
    it ends, and whose result, when it has one, satisfies [Q]. *)
Definition keeps_source {A : Type} (data : DataFrame) (m : M A)
    (Q : A -> Prop) : Prop :=
  forall s : state,
    source_kept data s ->
    source_kept data (m s).2 /\ forall x : A, (m s).1 = inr x -> Q x.

(** ** Notions of binary64 arithmetic

    What the proofs about sums, means and the correlation pass speak
    of, over the specification of binary64 ([spec_float]). *)

(** A shift record that lost nothing so far. *)
Definition exact_record (m : Z) : shr_record :=
  {| shr_m := m; shr_r := false; shr_s := false |}.

(** The binary64 number that is the whole number [z], 0 < z < 2^53: its
    mantissa has 53 digits. *)
Definition represents (z : Z) (x : spec_float) : Prop :=
  exists m : positive,
    x = S754_finite false m (Z.log2 z - 52)
    /\ Zpos m = z * 2 ^ (52 - Z.log2 z).

(** A number that is not zero, or an infinity, of sign [s]. *)
Definition nonzero (s : bool) (x : spec_float) : Prop :=
  match x with
  | S754_finite s' _ _ | S754_infinity s' => s' = s
  | _ => False
  end.

(** One of the two zeros. *)
Definition a_zero (x : float) : Prop := exists s, Prim2SF x = S754_zero s.

(** Two running sums, numpy's (from -0, over the cells with NaN filled by
    0) and the reference's (from 0, over the cells that are numbers):
    they are equal, or they are the two zeros. *)
Definition sums_agree (numpy reference : float) : Prop :=
  (numpy = neg_zero /\ reference = zero)
  \/ (numpy = reference /\ numpy <> neg_zero).

(** The correlation pass over a first (second) column whose finite cells
    all equal [c]: the sum of squared deviations is 0 or NaN, and while
    it is 0 the mean is 0 before the first row and [0 + c] after it. *)
Definition constant_x (c : float) (w : welford) : Prop :=
  ssqdm_x w = nan
  \/ (ssqdm_x w = zero
      /\ meanx w = match nobs w with O => zero | S _ => (zero + c)%float end).

Definition constant_y (c : float) (w : welford) : Prop :=
  ssqdm_y w = nan
  \/ (ssqdm_y w = zero
      /\ meany w = match nobs w with O => zero | S _ => (zero + c)%float end).


(** ** Example tables

    The table of the specification's scenario, one whose means are not
    round numbers, and one whose measured columns all vary. *)

(** A row given by the fields the scenario names. *)
Definition person (country gender : string) (age : Z) (coffee : Q)
    (stress : string) : row :=
  {| Country := country; Gender := gender; Age := age;
     Coffee_Intake := coffee; Sleep_Hours := 7; Stress_Level := stress;
     Heart_Rate := 70; BMI := 22; Occupation := "Other"; Smoking := 0;
     Alcohol_Consumption := 0; Physical_Activity_Hours := 3 |}.

Definition table (rows : list row) : DataFrame :=
  {| records := rows; Stress_Index := None; Activity_Bins := None |}.

Definition scenario : DataFrame :=
  table [ person "US" "Male" 25 2 "Low";
          person "US" "Female" 70 4 "High";
          person "DE" "Male" 40 3 "Medium" ].

Definition thirds : DataFrame :=
  table [ person "US" "Male" 25 1 "Low";
          person "US" "Male" 30 1 "Low";
          person "US" "Male" 35 2 "Medium" ].

Definition select (cs gs : list string) (lo hi : Z) : inputs :=
  {| countries := cs; genders := gs; age_range := (lo, hi);
     health_metric := "Sleep_Hours"; habit := "Smoking" |}.


(** A row given by its age, its coffee intake and its stress level. *)
Definition drinker (age : Z) (coffee : Q) (stress : string) : row :=
  person "US" "Male" age coffee stress.

(** Eight rows whose intakes add up differently in numpy's order and one
    after the other. *)
Definition eight : DataFrame :=
  table (List.map (fun coffee => drinker 30 coffee "Low")
           [2.6; 2.2; 3.8; 5.5; 6.8; 2.0; 0.6; 3.1]%Q).

(** Eight rows, and the same rows with the second and the third
    exchanged. *)
Definition eight_rows : DataFrame :=
  table (List.map (fun coffee => drinker 30 coffee "Low")
           [3.1; 3.2; 5.9; 3.7; 3.4; 0.9; 3.3; 5.5]%Q).

Definition eight_rows_exchanged : DataFrame :=
  table (List.map (fun coffee => drinker 30 coffee "Low")
           [3.1; 5.9; 3.2; 3.7; 3.4; 0.9; 3.3; 5.5]%Q).

(** 197 rows of low stress and 3 of medium stress. *)
Definition mostly_low : DataFrame :=
  table (List.repeat (drinker 30 2 "Low") 197
         ++ List.repeat (drinker 30 2 "Medium") 3)%list.


(** ** The sidebar (lines 30-32) *)

(** [s.unique()]: the distinct values, in order of first appearance. *)
Fixpoint unique (s : list string) : list string :=
  match s with
  | [] => []
  | x :: s' => x :: List.filter (fun y => negb (String.eqb x y)) (unique s')
  end.



(** Lines 30-31: what the two multiselects offer and select by default. *)
Definition default_countries (data : DataFrame) : list string :=
  unique (column Country data).

Definition default_genders (data : DataFrame) : list string :=
  unique (column Gender data).


(** ** The map of tab 3 (lines 115-116) *)






(** ** Well-formed frames *)

(** Every derived column of the frame has one cell per row. *)
Definition aligned (df : DataFrame) : Prop :=
  (forall c, Stress_Index df = Some c -> length c = length (records df))
  /\ (forall c, Activity_Bins df = Some c -> length c = length (records df)).

Definition heap_aligned (s : state) : Prop :=
  forall (a : nat) (df : DataFrame),
    heap s !! a = Some (ODataFrame df) -> aligned df.

(** A computation that keeps the frames of the heap well-formed, and whose
    result satisfies [Q]. *)
Definition keeps_aligned {A : Type} (m : M A) (Q : A -> Prop) : Prop :=
  forall s : state,
    heap_aligned s ->
    heap_aligned (m s).2 /\ forall x : A, (m s).1 = inr x -> Q x.

(** What only the tabs after the third put on the page. *)
Definition drawn_late (e : element) : bool :=
  match e with
  | st_expander _ | st_pyplot _ | st_markdown _ => true
  | st_plotly_chart (px_bar _) | st_plotly_chart (px_violin _ _)
  | st_plotly_chart (px_line _) => true
  | _ => false
  end.

(** * Properties *)

(** ** The filter *)

Lemma series_and_map {A : Type} (f g : A -> bool) (l : list A) :
  series_and (List.map f l) (List.map g l)
  = List.map (fun x => f x && g x) l.
Proof. induction l as [|x l IH]; simpl; [reflexivity | now rewrite IH]. Qed.

Lemma take_mask_map {A : Type} (f : A -> bool) (l : list A) :
  take_mask l (List.map f l) = List.filter f l.
Proof.
  induction l as [|x l IH]; simpl; [reflexivity |].
  destruct (f x); now rewrite IH.
Qed.

Lemma isin_spec (x : string) (values : list string) :
  existsb (String.eqb x) values = true <-> x ∈ values.
Proof.
  rewrite existsb_exists, list_elem_of_In. split.
  - intros [y [Hy Heq]]. apply String.eqb_eq in Heq. now subst.
  - intros Hin. exists x. split; [assumption | apply String.eqb_refl].
Qed.

Lemma filter_mask_keeps data countries genders age_range :
  filter_mask data countries genders age_range
  = List.map (keeps countries genders age_range) (records data).
Proof.
  unfold filter_mask, isin, ge, le, column.
  rewrite !List.map_map.
  rewrite (series_and_map (fun r => existsb (String.eqb (Country r)) countries)).
  rewrite (series_and_map
             (fun r => existsb (String.eqb (Country r)) countries
                       && existsb (String.eqb (Gender r)) genders)).
  rewrite (series_and_map
             (fun r => existsb (String.eqb (Country r)) countries
                       && existsb (String.eqb (Gender r)) genders
                       && (age_range.1 <=? Age r))).
  reflexivity.
Qed.

Lemma keeps_spec countries genders a b r :
  keeps countries genders (a, b) r = true
  <-> Country r ∈ countries /\ Gender r ∈ genders /\ a <= Age r <= b.
Proof.
  unfold keeps. simpl.
  rewrite !andb_true_iff, !isin_spec, !Z.leb_le. tauto.
Qed.

Lemma records_filtered_data data countries genders age_range :
  records (filtered_data data countries genders age_range)
  = List.filter (keeps countries genders age_range) (records data).
Proof.
  unfold filtered_data, getitem_mask. simpl.
  rewrite filter_mask_keeps. apply take_mask_map.
Qed.

(** C1: the filter keeps exactly the rows whose country is among the
    selected countries, whose gender is among the selected genders and
    whose age lies in the closed range: the result is the table with the
    other rows removed (order and repetitions kept), so no row that meets
    the three conditions is dropped and none that fails one is kept. *)
Theorem filter_exact (data : DataFrame) (countries genders : list string)
    (a b : Z) :
  records (filtered_data data countries genders (a, b))
  = List.filter
      (fun r => bool_decide (Country r ∈ countries /\ Gender r ∈ genders
                             /\ a <= Age r <= b))
      (records data)
  /\ forall r : row,
      r ∈ records (filtered_data data countries genders (a, b))
      <-> r ∈ records data /\ Country r ∈ countries
          /\ Gender r ∈ genders /\ a <= Age r <= b.
Proof.
  rewrite records_filtered_data. split.
  - apply filter_ext. intros r.
    apply eq_true_iff_eq. rewrite keeps_spec, bool_decide_eq_true. tauto.
  - intros r.
    rewrite (list_elem_of_In (List.filter _ _) r), filter_In, keeps_spec.
    rewrite <- list_elem_of_In. tauto.
Qed.

(** The scenario of the specification: country US, both genders, ages 20
    to 60 keep the first row only; both ends of the age range are kept. *)
Example scenario_first_row_only :
  records (filtered_data scenario ["US"] ["Male"; "Female"] (20, 60))
  = [person "US" "Male" 25 2 "Low"].
Proof. reflexivity. Qed.

Example age_range_ends_kept :
  records (filtered_data scenario ["US"; "DE"] ["Male"; "Female"] (25, 40))
  = [person "US" "Male" 25 2 "Low"; person "DE" "Male" 40 3 "Medium"].
Proof. reflexivity. Qed.

Example absent_country_selects_none :
  empty (filtered_data scenario ["FR"] ["Male"; "Female"] (20, 60)) = true.
Proof. reflexivity. Qed.

(** ** The stress index *)

Lemma stress_level_mapping_lookup (level : string) :
  stress_level_mapping !! level
  = if decide (level = "Low") then Some 1
    else if decide (level = "Medium") then Some 2
    else if decide (level = "High") then Some 3
    else None.
Proof.
  unfold stress_level_mapping.
  repeat case_decide; subst; simplify_map_eq; reflexivity.
Qed.

Lemma stress_level_known (level : string) :
  level ∈ ["Low"; "Medium"; "High"]
  <-> is_Some (stress_level_mapping !! level).
Proof.
  rewrite stress_level_mapping_lookup, !elem_of_cons. split.
  - intros [-> | [-> | [-> | Hin]]]; simpl; eauto. inversion Hin.
  - intros [z Hz]. repeat case_decide; subst; try discriminate; auto.
Qed.

(** C5: the mapping sends Low, Medium and High to 1, 2 and 3, in that
    order, and every other stress level to a missing value. *)
Theorem stress_index_map :
  stress_level_mapping !! "Low" = Some 1
  /\ stress_level_mapping !! "Medium" = Some 2
  /\ stress_level_mapping !! "High" = Some 3
  /\ (forall l m h : Z,
        stress_level_mapping !! "Low" = Some l ->
        stress_level_mapping !! "Medium" = Some m ->
        stress_level_mapping !! "High" = Some h ->
        l < m < h)
  /\ (forall level : string,
        level ∉ ["Low"; "Medium"; "High"] ->
        stress_level_mapping !! level = None)
  /\ (forall levels : list string,
        series_map levels stress_level_mapping
        = List.map (fun level =>
                      if decide (level = "Low") then Some 1
                      else if decide (level = "Medium") then Some 2
                      else if decide (level = "High") then Some 3
                      else None) levels).
Proof.
  pose proof stress_level_mapping_lookup as Hlookup.
  split; [apply Hlookup |]. split; [apply Hlookup |]. split; [apply Hlookup |].
  split; [| split].
  - intros l m h. rewrite !Hlookup. simpl. intros [= <-] [= <-] [= <-]. lia.
  - intros level Hout. rewrite Hlookup.
    repeat case_decide; subst; try reflexivity; exfalso; apply Hout;
      set_solver.
  - intros levels. unfold series_map. apply map_ext. intros level.
    apply Hlookup.
Qed.

Lemma stress_index_map_witness :
  ("low" ∉ ["Low"; "Medium"; "High"]) /\ stress_level_mapping !! "low" = None.
Proof.
  assert (Hout : "low" ∉ ["Low"; "Medium"; "High"]).
  { intros Hin. repeat (apply elem_of_cons in Hin as [Hin | Hin];
                        [discriminate |]).
    inversion Hin. }
  split; [exact Hout |].
  exact (proj1 (proj2 (proj2 (proj2 (proj2 stress_index_map)))) "low" Hout).
Defined.

Example stress_index_column :
  Stress_Index
    (derived (table [ person "US" "Male" 25 2 "Low";
                      person "US" "Male" 25 2 "low";
                      person "US" "Male" 25 2 "High" ]))
  = Some [Some 1; None; Some 3].
Proof. reflexivity. Qed.

(** ** The activity bins *)

Lemma searchsorted_activity (h : Q) :
  searchsorted_left activity_bins h
  = if Qlt_le_dec 0 h then
      if Qlt_le_dec 2 h then
        if Qlt_le_dec 4 h then
          if Qlt_le_dec 6 h then
            if Qlt_le_dec 24 h then 5%nat else 4%nat
          else 3%nat
        else 2%nat
      else 1%nat
    else 0%nat.
Proof.
  unfold activity_bins. simpl.
  repeat (destruct (Qlt_le_dec _ h); try reflexivity).
Qed.

(** C2, as the code has it: the bins are closed on the right.  Hours in
    (0,2] get "0-2h", in (2,4] "2-4h", in (4,6] "4-6h", in (6,24] "6h+";
    hours below 0 or above 24 get no bin.  So the breakpoint 2 falls in
    the lower bin "0-2h", 23.9 is in "6h+", and so is 24. *)
Theorem activity_bin_right_closed (h : Q) :
  ((0 < h /\ h <= 2)%Q -> Activity_Bin h = Some "0-2h")
  /\ ((2 < h /\ h <= 4)%Q -> Activity_Bin h = Some "2-4h")
  /\ ((4 < h /\ h <= 6)%Q -> Activity_Bin h = Some "4-6h")
  /\ ((6 < h /\ h <= 24)%Q -> Activity_Bin h = Some "6h+")
  /\ ((h < 0 \/ 24 < h)%Q -> Activity_Bin h = None).
Proof.
  unfold Activity_Bin, cut. rewrite searchsorted_activity.
  repeat split; intros Hh;
    first [destruct Hh as [Hh1 Hh2] | destruct Hh as [Hh | Hh]];
    repeat (destruct (Qlt_le_dec _ h); try reflexivity;
            try (exfalso; lra)).
Qed.

Lemma activity_bin_right_closed_witness :
  ((6 < 239 # 10 /\ 239 # 10 <= 24)%Q /\ Activity_Bin (239 # 10) = Some "6h+")
  /\ ((0 < 2 /\ 2 <= 2)%Q /\ Activity_Bin 2 = Some "0-2h")
  /\ ((25 < 0 \/ 24 < 25)%Q /\ Activity_Bin 25 = None)
  /\ ((6 < 24 /\ 24 <= 24)%Q /\ Activity_Bin 24 = Some "6h+").
Proof.
  assert (H1 : (6 < 239 # 10 /\ 239 # 10 <= 24)%Q) by (split; lra).
  assert (H2 : (0 < 2 /\ 2 <= 2)%Q) by (split; lra).
  assert (H3 : (25 < 0 \/ 24 < 25)%Q) by (right; lra).
  assert (H4 : (6 < 24 /\ 24 <= 24)%Q) by (split; lra).
  split; [split; [exact H1 |] | split; [split; [exact H2 |]
         | split; [split; [exact H3 |] | split; [exact H4 |]]]].
  - exact (proj1 (proj2 (proj2 (proj2
             (activity_bin_right_closed (239 # 10))))) H1).
  - exact (proj1 (activity_bin_right_closed 2) H2).
  - exact (proj2 (proj2 (proj2 (proj2 (activity_bin_right_closed 25)))) H3).
  - exact (proj1 (proj2 (proj2 (proj2 (activity_bin_right_closed 24)))) H4).
Defined.

(** C2 as stated fails on the code: 0 hours is given no bin ("0-2h" is
    claimed), the breakpoint 2 goes to the lower bin "0-2h" ("2-4h" is
    claimed), and 24, outside [0,24), is binned. *)
Lemma activity_bin_left_closed_fails :
  Activity_Bin 0 <> Some "0-2h"
  /\ Activity_Bin 2 <> Some "2-4h"
  /\ Activity_Bin 24 <> None.
Proof. repeat split; discriminate. Qed.

Example activity_bins_sampled :
  List.map Activity_Bin [0; 1 # 2; 2; 3; 4; 5; 6; 239 # 10; 24; 25; -1]%Q
  = [ None; Some "0-2h"; Some "0-2h"; Some "2-4h"; Some "2-4h";
      Some "4-6h"; Some "4-6h"; Some "6h+"; Some "6h+"; None; None ].
Proof. reflexivity. Qed.

(** ** Running the script *)

Lemma bind_inr {A B : Type} (m : M A) (f : A -> M B) (s s' : state) (x : A) :
  m s = (inr x, s') -> bind m f s = f x s'.
Proof. intros Hm. unfold bind. now rewrite Hm. Qed.

Lemma frame_at (name : string) (a : nat) (df : DataFrame) (s : state) :
  globals s !! name = Some a ->
  heap s !! a = Some (ODataFrame df) ->
  frame name s = (inr (a, df), s).
Proof.
  intros Hname Hobj. unfold frame, bind, name_. now rewrite Hname, Hobj.
Qed.

Lemma run_Filter (data : DataFrame) (inp : inputs) :
  run_operation (Filter (countries inp) (genders inp) (age_range inp))
                (loaded data)
  = (inr tt, after_filter data inp).
Proof.
  unfold run_operation.
  erewrite bind_inr by (apply (frame_at "data" 0 data); reflexivity).
  reflexivity.
Qed.

Lemma frame_after_filter (data : DataFrame) (inp : inputs) :
  frame "filtered_data" (after_filter data inp)
  = (inr (1%nat, filtered_data data (countries inp) (genders inp)
                               (age_range inp)),
     after_filter data inp).
Proof. apply frame_at; reflexivity. Qed.

Lemma run_empty (data : DataFrame) (inp : inputs) :
  empty (filtered_data data (countries inp) (genders inp) (age_range inp))
  = true ->
  run data inp = (inl StopException, stopped data inp).
Proof.
  intros Hempty. unfold run, script.
  erewrite bind_inr by apply run_Filter.
  erewrite bind_inr by apply frame_after_filter.
  cbn [snd]. rewrite Hempty. reflexivity.
Qed.

Lemma filter_nothing_selected (data : DataFrame) (a b : Z) :
  records (filtered_data data [] [] (a, b)) = [].
Proof.
  rewrite records_filtered_data.
  induction (records data) as [|r l IH]; [reflexivity | exact IH].
Qed.

(** C3: with both selector lists empty the filter selects no row, whatever
    the table and the age range, and the run ends in the empty-result
    notice and [st.stop()]. *)
Theorem empty_selectors_select_none (data : DataFrame) (a b : Z)
    (metric activity : string) :
  let inp := {| countries := []; genders := []; age_range := (a, b);
                health_metric := metric; habit := activity |} in
  records (filtered_data data [] [] (a, b)) = []
  /\ empty (filtered_data data [] [] (a, b)) = true
  /\ (run data inp).1 = inl StopException
  /\ page (run data inp).2 = [st_warning empty_notice].
Proof.
  intros inp.
  assert (Hempty : empty (filtered_data data [] [] (a, b)) = true).
  { unfold empty. now rewrite filter_nothing_selected. }
  split; [apply filter_nothing_selected |]. split; [exact Hempty |].
  rewrite (run_empty data inp Hempty). split; reflexivity.
Qed.

(** C4: when the filtered table is empty the run shows the notice and stops
    there: the page holds the warning and nothing else (no KPI, no chart),
    and the heap holds the loaded table and the empty filtered table as the
    filter left it, and nothing else (no stress index was derived, no
    aggregate was computed).  So a run that shows a KPI or a chart, or
    that holds an aggregate, had a filtered table with rows. *)
Theorem empty_result_stops (data : DataFrame) (inp : inputs) :
  let fd := filtered_data data (countries inp) (genders inp) (age_range inp) in
  (empty fd = true ->
   run data inp
   = (inl StopException,
      {| heap := [ODataFrame data; ODataFrame fd];
         globals := <["filtered_data" := 1%nat]> {["data" := 0%nat]};
         page := [st_warning empty_notice] |})
   /\ Forall (fun e => shows_result e = false) (page (run data inp).2)
   /\ Forall (fun o => is_aggregate o = false) (heap (run data inp).2))
  /\ (Exists (fun e => shows_result e = true) (page (run data inp).2)
      \/ Exists (fun o => is_aggregate o = true) (heap (run data inp).2) ->
      empty fd = false).
Proof.
  intros fd. split.
  - intros Hempty. rewrite (run_empty data inp Hempty).
    split; [reflexivity |]. split; repeat constructor.
  - destruct (empty fd) eqn:Hempty; [| reflexivity].
    rewrite (run_empty data inp Hempty). cbn [snd stopped page heap after_filter].
    intros [Hshown | Hheld].
    + apply Exists_cons in Hshown as [Hshown | Hshown]; [discriminate |].
      inversion Hshown.
    + apply Exists_cons in Hheld as [Hheld | Hheld]; [discriminate |].
      apply Exists_cons in Hheld as [Hheld | Hheld]; [discriminate |].
      inversion Hheld.
Qed.

Lemma empty_result_stops_witness :
  let inp := select ["FR"] ["Male"; "Female"] 20 60 in
  empty (filtered_data scenario (countries inp) (genders inp) (age_range inp))
  = true
  /\ (run scenario inp).1 = inl StopException
  /\ page (run scenario inp).2 = [st_warning empty_notice].
Proof.
  intros inp.
  assert (Hempty : empty (filtered_data scenario (countries inp)
                                        (genders inp) (age_range inp))
                   = true) by reflexivity.
  split; [exact Hempty |].
  destruct (proj1 (empty_result_stops scenario inp) Hempty) as [Hrun _].
  rewrite Hrun. split; reflexivity.
Defined.

Lemma run_nonempty (data : DataFrame) (inp : inputs) :
  empty (filtered_data data (countries inp) (genders inp) (age_range inp))
  = false ->
  run data inp = (inl (NameError "st_echarts"), raised data inp).
Proof.
  intros Hempty. unfold run, script.
  erewrite bind_inr by apply run_Filter.
  erewrite bind_inr by apply frame_after_filter.
  cbn [snd]. rewrite Hempty.
  reflexivity.
Qed.

(** ** binary64: rounding a mantissa *)

Lemma iter_pos_nat {A : Type} (f : A -> A) (k : positive) (x : A) :
  SpecFloat.iter_pos f k x = Nat.iter (Pos.to_nat k) f x.
Proof.
  revert x. induction k as [k IH | k IH |]; intros x; cbn [SpecFloat.iter_pos].
  - rewrite !IH. rewrite Pos2Nat.inj_xI.
    replace (S (2 * Pos.to_nat k))%nat with (Pos.to_nat k + (Pos.to_nat k + 1))%nat by lia.
    rewrite !Nat.iter_add. reflexivity.
  - rewrite !IH. rewrite Pos2Nat.inj_xO.
    replace (2 * Pos.to_nat k)%nat with (Pos.to_nat k + Pos.to_nat k)%nat by lia.
    rewrite Nat.iter_add. reflexivity.
  - reflexivity.
Qed.

Lemma shr_1_iter_xO (n : nat) (m : positive) :
  Nat.iter n shr_1 (exact_record (Zpos (Nat.iter n xO m))) = exact_record (Zpos m).
Proof.
  induction n as [|n IH]; [reflexivity |].
  rewrite Nat.iter_succ_r. simpl. exact IH.
Qed.

Lemma iter_pos_shr_1 (k : positive) (m : positive) :
  SpecFloat.iter_pos shr_1 k (exact_record (Zpos (Pos.iter xO m k))) = exact_record (Zpos m).
Proof.
  rewrite iter_pos_nat, Pos2Nat.inj_iter. apply shr_1_iter_xO.
Qed.

Lemma digits2_pos_log2 (p : positive) :
  Zpos (digits2_pos p) = Z.log2 (Zpos p) + 1.
Proof.
  induction p as [p IH | p IH |]; simpl digits2_pos.
  - rewrite Pos2Z.inj_succ, IH. rewrite Pos2Z.inj_xI.
    rewrite Z.log2_succ_double by lia. lia.
  - rewrite Pos2Z.inj_succ, IH. rewrite Pos2Z.inj_xO.
    rewrite Z.log2_double by lia. lia.
  - reflexivity.
Qed.

Lemma Zpos_iter_xO (m k : positive) :
  Zpos (Pos.iter xO m k) = Zpos m * 2 ^ Zpos k.
Proof.
  rewrite <- Z.shiftl_mul_pow2 by lia. unfold Z.shiftl.
  apply (Pos.iter_swap_gen _ _ Zpos xO (Z.mul 2)). reflexivity.
Qed.

(** A mantissa that is a canonical one shifted left by [k] places rounds
    to the canonical one: nothing is lost. *)
Lemma binary_round_aux_exact (s : bool) (m M : positive) (e k : Z) :
  0 <= k ->
  Zpos M = Zpos m * 2 ^ k ->
  canonical_mantissa prec emax m e = true ->
  e <= emax - prec ->
  binary_round_aux prec emax s (Zpos M) (e - k) loc_Exact = S754_finite s m e.
Proof.
  intros Hk HM Hcan He.
  unfold canonical_mantissa in Hcan. apply Z.eqb_eq in Hcan.
  assert (Hdig : Zdigits2 (Zpos M) + (e - k) = Zpos (digits2_pos m) + e).
  { simpl Zdigits2. rewrite !digits2_pos_log2, HM.
    rewrite Z.log2_mul_pow2 by lia. lia. }
  assert (Hfin : shr_fexp prec emax (Zpos m) e loc_Exact = (exact_record (Zpos m), e)).
  { unfold shr_fexp. simpl Zdigits2. rewrite Hcan, Z.sub_diag. reflexivity. }
  unfold binary_round_aux.
  assert (Hfirst : shr_fexp prec emax (Zpos M) (e - k) loc_Exact
                   = (exact_record (Zpos m), e)).
  { unfold shr_fexp. rewrite Hdig, Hcan.
    replace (e - (e - k)) with k by lia.
    destruct k as [| k | k]; [| | lia].
    - rewrite Z.mul_1_r in HM. injection HM as ->.
      simpl. f_equal. lia.
    - rewrite <- Zpos_iter_xO in HM. injection HM as ->.
      unfold shr. change (shr_record_of_loc (Zpos (Pos.iter xO m k)) loc_Exact)
        with (exact_record (Zpos (Pos.iter xO m k))).
      rewrite iter_pos_shr_1. f_equal. lia. }
  rewrite Hfirst. cbn [exact_record shr_m loc_of_shr_record round_nearest_even].
  rewrite Hfin. cbn [exact_record shr_m].
  apply Z.leb_le in He. rewrite He. reflexivity.
Qed.

Lemma binary_round_aux_canonical (s : bool) (m : positive) (e : Z) :
  canonical_mantissa prec emax m e = true ->
  e <= emax - prec ->
  binary_round_aux prec emax s (Zpos m) e loc_Exact = S754_finite s m e.
Proof.
  intros Hcan He.
  replace e with (e - 0) at 1 by lia.
  apply binary_round_aux_exact; [lia | lia | exact Hcan | exact He].
Qed.

(** ** Whole numbers *)

Lemma represents_inj (z : Z) (x y : spec_float) :
  represents z x -> represents z y -> x = y.
Proof.
  intros (m & -> & Hm) (m' & -> & Hm'). f_equal. lia.
Qed.

Lemma log2_small (z : Z) : 0 < z < 2 ^ 53 -> 0 <= Z.log2 z <= 52.
Proof.
  intros Hz. split; [apply Z.log2_nonneg |].
  assert (Z.log2 z < 53); [| lia].
  apply Z.log2_lt_pow2; lia.
Qed.

Lemma represents_canonical (z : Z) (m : positive) :
  0 < z < 2 ^ 53 ->
  Zpos m = z * 2 ^ (52 - Z.log2 z) ->
  canonical_mantissa prec emax m (Z.log2 z - 52) = true.
Proof.
  intros Hz Hm. pose proof (log2_small z Hz) as Hl.
  unfold canonical_mantissa. apply Z.eqb_eq.
  rewrite digits2_pos_log2, Hm, Z.log2_mul_pow2 by lia.
  unfold fexp, SpecFloat.emin, prec, emax. lia.
Qed.

Lemma float_of_int_represents (z : Z) :
  0 < z < 2 ^ 53 -> represents z (Prim2SF (float_of_int z)).
Proof.
  intros Hz. pose proof (log2_small z Hz) as Hl.
  unfold float_of_int. destruct (Z.ltb_spec z 0) as [Hneg | _]; [lia |].
  rewrite of_uint63_spec, Uint63.of_Z_spec.
  assert (HwB : 2 ^ 53 < Uint63.wB) by reflexivity.
  rewrite Z.mod_small by lia.
  destruct z as [| p | p]; [lia | | lia].
  unfold binary_normalize, binary_round.
  rewrite digits2_pos_log2.
  assert (Hfexp : fexp prec emax (Z.log2 (Zpos p) + 1 + 0) = Z.log2 (Zpos p) - 52)
    by (unfold fexp, SpecFloat.emin, prec, emax; lia).
  rewrite Hfexp. unfold shl_align.
  destruct (Z.log2 (Z.pos p) - 52 - 0) as [| d | d] eqn:Hd; [| lia |].
  - assert (Hp : Zpos p = Zpos p * 2 ^ (52 - Z.log2 (Zpos p))).
    { replace (52 - Z.log2 (Z.pos p)) with 0 by lia. lia. }
    exists p. split; [| exact Hp].
    pose proof (represents_canonical (Zpos p) p Hz Hp) as Hcan.
    replace (Z.log2 (Z.pos p) - 52) with 0 in * by lia.
    apply binary_round_aux_canonical; [exact Hcan | unfold prec, emax; lia].
  - assert (HM : Zpos (Pos.iter xO p d) = Zpos p * 2 ^ (52 - Z.log2 (Zpos p))).
    { rewrite Zpos_iter_xO. f_equal. f_equal. lia. }
    exists (Pos.iter xO p d). split; [| exact HM].
    apply binary_round_aux_canonical; [| unfold prec, emax; lia].
    apply represents_canonical; assumption.
Qed.

Lemma shl_align_value (m : positive) (e ez : Z) :
  ez <= e ->
  Zpos (fst (shl_align m e ez)) = Zpos m * 2 ^ (e - ez).
Proof.
  intros Hle. unfold shl_align.
  destruct (ez - e) as [| d | d] eqn:Hd; [| lia |]; cbn [fst].
  - replace (e - ez) with 0 by lia. lia.
  - rewrite Zpos_iter_xO. do 2 f_equal. lia.
Qed.

Lemma represents_add (a b : Z) (x y : spec_float) :
  0 < a -> 0 < b -> a + b < 2 ^ 53 ->
  represents a x -> represents b y ->
  represents (a + b) (SF64add x y).
Proof.
  intros Ha Hb Hsum (ma & -> & Hma) (mb & -> & Hmb).
  pose proof (log2_small a ltac:(lia)) as Hla.
  pose proof (log2_small b ltac:(lia)) as Hlb.
  pose proof (log2_small (a + b) ltac:(lia)) as Hlc.
  assert (Hlac : Z.log2 a <= Z.log2 (a + b)) by (apply Z.log2_le_mono; lia).
  assert (Hlbc : Z.log2 b <= Z.log2 (a + b)) by (apply Z.log2_le_mono; lia).
  unfold SF64add, SFadd. cbn [cond_Zopp].
  set (ez := Z.min (Z.log2 a - 52) (Z.log2 b - 52)).
  rewrite !shl_align_value by (unfold ez; lia).
  rewrite Hma, Hmb.
  assert (Hvalue : a * 2 ^ (52 - Z.log2 a) * 2 ^ (Z.log2 a - 52 - ez)
                   + b * 2 ^ (52 - Z.log2 b) * 2 ^ (Z.log2 b - 52 - ez)
                   = (a + b) * 2 ^ (- ez)).
  { rewrite <- !Z.mul_assoc, <- !Z.pow_add_r by (unfold ez; lia).
    replace (52 - Z.log2 a + (Z.log2 a - 52 - ez)) with (- ez) by lia.
    replace (52 - Z.log2 b + (Z.log2 b - 52 - ez)) with (- ez) by lia.
    ring. }
  rewrite Hvalue.
  assert (Hpos : 0 < (a + b) * 2 ^ (- ez)).
  { apply Z.mul_pos_pos; [lia |]. apply Z.pow_pos_nonneg; unfold ez; lia. }
  destruct ((a + b) * 2 ^ (- ez)) as [| M | M] eqn:HM; [lia | | lia].
  unfold binary_normalize, binary_round.
  rewrite digits2_pos_log2, <- HM, Z.log2_mul_pow2 by (unfold ez; lia).
  match goal with
  | |- context [fexp prec emax ?x] =>
      replace (fexp prec emax x) with (Z.log2 (a + b) - 52)
        by (unfold fexp, SpecFloat.emin, prec, emax; lia)
  end.
  unfold shl_align.
  destruct (Z.log2 (a + b) - 52 - ez) as [| d | d] eqn:Hd;
    [| | unfold ez in Hd; lia].
  - assert (Hmc : Zpos M = (a + b) * 2 ^ (52 - Z.log2 (a + b))).
    { rewrite <- HM. do 2 f_equal. lia. }
    exists M. split; [| exact Hmc].
    replace ez with (Z.log2 (a + b) - 52) by lia.
    apply binary_round_aux_canonical; [| unfold prec, emax; lia].
    apply represents_canonical; [lia | exact Hmc].
  - assert (Hmc : 0 < (a + b) * 2 ^ (52 - Z.log2 (a + b))).
    { apply Z.mul_pos_pos; [lia |]. apply Z.pow_pos_nonneg; lia. }
    destruct ((a + b) * 2 ^ (52 - Z.log2 (a + b))) as [| mc | mc] eqn:Hc;
      [lia | | lia].
    exists mc. split; [| now rewrite Hc].
    replace ez with (Z.log2 (a + b) - 52 - Zpos d) by lia.
    apply binary_round_aux_exact; [lia | | | unfold prec, emax; lia].
    + rewrite <- HM, <- Hc, <- Z.mul_assoc, <- Z.pow_add_r by lia.
      do 2 f_equal. lia.
    + apply represents_canonical; [lia |]. now rewrite Hc.
Qed.

Lemma float_of_int_add (a b : Z) :
  0 <= a -> 0 <= b -> a + b < 2 ^ 53 ->
  (float_of_int a + float_of_int b)%float = float_of_int (a + b).
Proof.
  intros Ha Hb Hsum.
  apply Prim2SF_inj. rewrite add_spec.
  destruct (Z.eq_dec a 0) as [-> | Ha0].
  { change (Prim2SF (float_of_int 0)) with (S754_zero false).
    destruct (Z.eq_dec b 0) as [-> | Hb0]; [reflexivity |].
    destruct (float_of_int_represents b ltac:(lia)) as (m & Hm & _).
    rewrite Z.add_0_l, Hm. reflexivity. }
  destruct (Z.eq_dec b 0) as [-> | Hb0].
  { change (Prim2SF (float_of_int 0)) with (S754_zero false).
    destruct (float_of_int_represents a ltac:(lia)) as (m & Hm & _).
    rewrite Z.add_0_r, Hm. reflexivity. }
  apply (represents_inj (a + b)).
  - apply represents_add; try lia; apply float_of_int_represents; lia.
  - apply float_of_int_represents. lia.
Qed.

(** ** Rounding a mantissa that is not zero *)

Lemma shr_m_shr_1 (r : shr_record) :
  0 <= shr_m r -> shr_m (shr_1 r) = shr_m r / 2.
Proof.
  destruct r as [[| [p | p |] | p] r s]; cbn [shr_m shr_1]; intros Hm;
    try lia; try reflexivity.
  - rewrite Pos2Z.inj_xI. apply Z.div_unique with 1; lia.
  - rewrite Pos2Z.inj_xO. apply Z.div_unique with 0; lia.
Qed.

Lemma shr_m_iter (n : nat) (r : shr_record) :
  0 <= shr_m r ->
  shr_m (Nat.iter n shr_1 r) = shr_m r / 2 ^ Z.of_nat n.
Proof.
  intros Hm. induction n as [|n IH].
  - simpl. now rewrite Z.div_1_r.
  - rewrite Nat.iter_succ, shr_m_shr_1.
    + rewrite IH, Z.div_div by lia.
      rewrite Nat2Z.inj_succ, Z.pow_succ_r by lia. f_equal. lia.
    + rewrite IH. apply Z.div_pos; lia.
Qed.

Lemma shr_m_of_loc (m : Z) (l : location) : shr_m (shr_record_of_loc m l) = m.
Proof. destruct l as [| []]; reflexivity. Qed.

Lemma shr_fexp_pos (m e : Z) (l : location) :
  0 < m -> SpecFloat.emin prec emax <= e ->
  0 < shr_m (shr_fexp prec emax m e l).1
  /\ SpecFloat.emin prec emax <= (shr_fexp prec emax m e l).2.
Proof.
  intros Hm He. unfold shr_fexp, shr.
  assert (Hdig : Zdigits2 m = Z.log2 m + 1).
  { destruct m as [| p | p]; [lia | | lia]. apply digits2_pos_log2. }
  rewrite Hdig.
  destruct (fexp prec emax (Z.log2 m + 1 + e) - e) as [| p | p] eqn:Hp;
    cbn [fst snd]; rewrite ?shr_m_of_loc; try (split; lia).
  assert (Hbound : Zpos p <= Z.log2 m).
  { revert Hp. unfold fexp, SpecFloat.emin, prec, emax in *. lia. }
  split; [| lia].
  rewrite iter_pos_nat, shr_m_iter by (rewrite shr_m_of_loc; lia).
  rewrite shr_m_of_loc, positive_nat_Z.
  apply Z.div_str_pos. split; [apply Z.pow_pos_nonneg; lia |].
  transitivity (2 ^ Z.log2 m); [apply Z.pow_le_mono_r; lia |].
  apply Z.log2_spec. exact Hm.
Qed.

Lemma round_nearest_even_ge (m : Z) (l : location) :
  m <= round_nearest_even m l.
Proof.
  destruct l as [| []]; cbn [round_nearest_even]; try lia.
  destruct (Z.even m); lia.
Qed.

Lemma binary_round_aux_nonzero (s : bool) (m e : Z) (l : location) :
  0 < m -> SpecFloat.emin prec emax <= e ->
  nonzero s (binary_round_aux prec emax s m e l).
Proof.
  intros Hm He. unfold binary_round_aux.
  destruct (shr_fexp_pos m e l Hm He) as [Hm1 He1].
  destruct (shr_fexp prec emax m e l) as [mrs' e'] eqn:Hfirst.
  cbn [fst snd] in Hm1, He1.
  pose proof (round_nearest_even_ge (shr_m mrs') (loc_of_shr_record mrs'))
    as Hround.
  set (m1 := round_nearest_even (shr_m mrs') (loc_of_shr_record mrs')) in *.
  destruct (shr_fexp_pos m1 e' loc_Exact ltac:(lia) He1) as [Hm2 _].
  destruct (shr_fexp prec emax m1 e' loc_Exact) as [mrs'' e''].
  cbn [fst] in Hm2.
  destruct (shr_m mrs'') as [| p | p]; [lia | | lia].
  destruct (e'' <=? emax - prec); reflexivity.
Qed.

Lemma binary_round_nonzero (s : bool) (m : positive) (e : Z) :
  SpecFloat.emin prec emax <= e ->
  nonzero s (binary_round prec emax s m e).
Proof.
  intros He. unfold binary_round, shl_align.
  destruct (fexp prec emax (Z.pos (digits2_pos m) + e) - e) as [| d | d] eqn:Hd;
    apply binary_round_aux_nonzero; try lia.
  revert Hd. unfold fexp, SpecFloat.emin, prec, emax in *. lia.
Qed.

Lemma valid_emin (s : bool) (m : positive) (e : Z) (x : float) :
  Prim2SF x = S754_finite s m e -> SpecFloat.emin prec emax <= e.
Proof.
  intros Hx. pose proof (Prim2SF_valid x) as Hvalid. rewrite Hx in Hvalid.
  cbn [SpecFloat.valid_binary] in Hvalid. unfold bounded in Hvalid.
  apply andb_prop in Hvalid as [Hcan _].
  unfold canonical_mantissa in Hcan. apply Z.eqb_eq in Hcan.
  revert Hcan. unfold fexp, SpecFloat.emin, prec, emax. lia.
Qed.

(** ** Sums and the two zeros *)

Lemma neg_zero_spec (x : float) : Prim2SF x = S754_zero true -> x = neg_zero.
Proof. intros Hx. apply Prim2SF_inj. now rewrite Hx. Qed.

Lemma add_zero_l (x : float) : x <> neg_zero -> (zero + x)%float = x.
Proof.
  intros Hx. apply Prim2SF_inj. rewrite add_spec.
  change (Prim2SF zero) with (S754_zero false).
  destruct (Prim2SF x) as [[|] | | |] eqn:Hsf; try reflexivity.
  exfalso. apply Hx, neg_zero_spec, Hsf.
Qed.

Lemma add_zero_r (x : float) : x <> neg_zero -> (x + zero)%float = x.
Proof.
  intros Hx. apply Prim2SF_inj. rewrite add_spec.
  change (Prim2SF zero) with (S754_zero false).
  destruct (Prim2SF x) as [[|] | | |] eqn:Hsf; try reflexivity.
  exfalso. apply Hx, neg_zero_spec, Hsf.
Qed.

Lemma add_neg_zero_l (x : float) : (neg_zero + x)%float = x.
Proof.
  apply Prim2SF_inj. rewrite add_spec.
  change (Prim2SF neg_zero) with (S754_zero true).
  destruct (Prim2SF x) as [[|] | | |]; reflexivity.
Qed.

Lemma add_not_neg_zero (x y : float) :
  x <> neg_zero -> (x + y)%float <> neg_zero.
Proof.
  intros Hx Hsum.
  assert (Hsf : Prim2SF (x + y) = S754_zero true) by now rewrite Hsum.
  rewrite add_spec in Hsf. unfold SF64add, SFadd in Hsf.
  destruct (Prim2SF x) as [[|] | [|] | | sx mx ex] eqn:Hsx;
    destruct (Prim2SF y) as [[|] | [|] | | sy my ey] eqn:Hsy;
    try discriminate.
  - apply Hx, neg_zero_spec, Hsx.
  - pose proof (valid_emin _ _ _ _ Hsx) as Hex.
    pose proof (valid_emin _ _ _ _ Hsy) as Hey.
    destruct (cond_Zopp sx (Z.pos (shl_align mx ex (Z.min ex ey)).1)
              + cond_Zopp sy (Z.pos (shl_align my ey (Z.min ex ey)).1))
      as [| p | p]; cbn [binary_normalize] in Hsf; [discriminate | |].
    + pose proof (binary_round_nonzero false p (Z.min ex ey) ltac:(lia)) as Hnz.
      rewrite Hsf in Hnz. exact Hnz.
    + pose proof (binary_round_nonzero true p (Z.min ex ey) ltac:(lia)) as Hnz.
      rewrite Hsf in Hnz. exact Hnz.
Qed.

(** ** Special values *)

Lemma is_nan_spec (x : float) :
  is_nan x = match Prim2SF x with S754_nan => true | _ => false end.
Proof.
  unfold is_nan. rewrite FloatAxioms.eqb_spec. unfold SFeqb, SFcompare.
  destruct (Prim2SF x) as [[|] | [|] | | [|] m e]; try reflexivity;
    rewrite Z.compare_refl, Pos.compare_cont_refl; reflexivity.
Qed.

Lemma nan_spec (x : float) : Prim2SF x = S754_nan -> x = nan.
Proof. intros Hx. apply Prim2SF_inj. now rewrite Hx. Qed.

Lemma zero_spec (x : float) : Prim2SF x = S754_zero false -> x = zero.
Proof. intros Hx. apply Prim2SF_inj. now rewrite Hx. Qed.

Lemma is_finite_spec (x : float) :
  is_finite x = match Prim2SF x with
                | S754_zero _ | S754_finite _ _ _ => true
                | _ => false
                end.
Proof.
  unfold is_finite. rewrite is_nan_spec. unfold is_infinity.
  rewrite FloatAxioms.eqb_spec, abs_spec.
  change (Prim2SF infinity) with (S754_infinity false).
  destruct (Prim2SF x) as [[|] | [|] | | [|] m e]; reflexivity.
Qed.


Lemma a_zero_zero : a_zero zero.
Proof. now exists false. Qed.

Lemma sub_zero_r (x : float) : (x - zero)%float = x.
Proof.
  apply Prim2SF_inj. rewrite sub_spec.
  change (Prim2SF zero) with (S754_zero false).
  destruct (Prim2SF x) as [[|] | [|] | | [|] m e]; reflexivity.
Qed.

Lemma mul_one_l (x : float) : (one * x)%float = x.
Proof.
  apply Prim2SF_inj. rewrite mul_spec.
  change (Prim2SF one) with (S754_finite false 4503599627370496 (-52)).
  pose proof (Prim2SF_valid x) as Hvalid.
  destruct (Prim2SF x) as [[|] | [|] | | s m e]; try reflexivity.
  unfold SF64mul, SFmul. cbn [xorb].
  cbn [SpecFloat.valid_binary] in Hvalid. unfold bounded in Hvalid.
  apply andb_prop in Hvalid as [Hcan He]. apply Z.leb_le in He.
  replace (-52 + e) with (e - 52) by lia.
  apply binary_round_aux_exact; [lia | | exact Hcan | exact He].
  rewrite Pos2Z.inj_mul. change (2 ^ 52) with 4503599627370496. lia.
Qed.

Lemma sub_diag (x : float) : is_finite x = true -> (x - x)%float = zero.
Proof.
  rewrite is_finite_spec. intros Hx.
  apply Prim2SF_inj. rewrite sub_spec.
  change (Prim2SF zero) with (S754_zero false).
  destruct (Prim2SF x) as [[|] | [|] | | s m e]; try discriminate;
    try reflexivity.
  unfold SF64sub, SFsub. rewrite Z.sub_diag. reflexivity.
Qed.


(** ** NaN and the zeros in sums and products *)

Lemma add_nan_l (x : float) : (nan + x)%float = nan.
Proof.
  apply Prim2SF_inj. rewrite add_spec.
  change (Prim2SF nan) with S754_nan. reflexivity.
Qed.

Lemma add_nan_r (x : float) : (x + nan)%float = nan.
Proof.
  apply Prim2SF_inj. rewrite add_spec.
  change (Prim2SF nan) with S754_nan.
  destruct (Prim2SF x) as [[|] | [|] | | [|] m e]; reflexivity.
Qed.

Lemma sub_nan_r (x : float) : (x - nan)%float = nan.
Proof.
  apply Prim2SF_inj. rewrite sub_spec.
  change (Prim2SF nan) with S754_nan.
  destruct (Prim2SF x) as [[|] | [|] | | [|] m e]; reflexivity.
Qed.

Lemma mul_nan_l (x : float) : (nan * x)%float = nan.
Proof.
  apply Prim2SF_inj. rewrite mul_spec.
  change (Prim2SF nan) with S754_nan. reflexivity.
Qed.

Lemma mul_nan_r (x : float) : (x * nan)%float = nan.
Proof.
  apply Prim2SF_inj. rewrite mul_spec.
  change (Prim2SF nan) with S754_nan.
  destruct (Prim2SF x) as [[|] | [|] | | [|] m e]; reflexivity.
Qed.

Lemma div_nan_r (x : float) : (x / nan)%float = nan.
Proof.
  apply Prim2SF_inj. rewrite div_spec.
  change (Prim2SF nan) with S754_nan.
  destruct (Prim2SF x) as [[|] | [|] | | [|] m e]; reflexivity.
Qed.

Lemma a_zero_finite (z : float) : a_zero z -> is_finite z = true.
Proof. intros [s Hz]. now rewrite is_finite_spec, Hz. Qed.

Lemma add_zero_a_zero (z : float) : a_zero z -> (zero + z)%float = zero.
Proof.
  intros [s Hz]. apply Prim2SF_inj. rewrite add_spec, Hz.
  change (Prim2SF zero) with (S754_zero false). destruct s; reflexivity.
Qed.

Lemma mean_stays (c z : float) :
  is_finite c = true -> a_zero z -> (zero + c + z)%float = (zero + c)%float.
Proof.
  rewrite is_finite_spec. intros Hc [s Hz].
  apply Prim2SF_inj. rewrite !add_spec, Hz.
  change (Prim2SF zero) with (S754_zero false).
  destruct (Prim2SF c) as [[|] | [|] | | [|] m e]; try discriminate;
    destruct s; reflexivity.
Qed.

Lemma diff_a_zero (c : float) :
  is_finite c = true -> a_zero (c - (zero + c)).
Proof.
  rewrite is_finite_spec. intros Hc. unfold a_zero.
  rewrite sub_spec, add_spec.
  change (Prim2SF zero) with (S754_zero false).
  destruct (Prim2SF c) as [[|] | [|] | | s m e]; try discriminate;
    try (eexists; reflexivity).
  unfold SF64add, SFadd, SF64sub, SFsub. rewrite Z.sub_diag.
  eexists; reflexivity.
Qed.

Lemma mul_a_zero_l (z c : float) :
  a_zero z -> is_finite c = true -> a_zero (z * c).
Proof.
  rewrite is_finite_spec. intros [s Hz] Hc. unfold a_zero.
  rewrite mul_spec, Hz.
  destruct (Prim2SF c) as [[|] | [|] | | [|] m e]; try discriminate;
    eexists; reflexivity.
Qed.

Lemma mul_a_zero_r (a z : float) :
  a_zero z -> (a * z)%float = nan \/ a_zero (a * z).
Proof.
  intros [s Hz].
  destruct (Prim2SF (a * z)) as [s' | s' | | s' m e] eqn:Hprod.
  - right. now exists s'.
  - exfalso. rewrite mul_spec, Hz in Hprod.
    destruct (Prim2SF a) as [[|] | [|] | | [|] m e]; discriminate.
  - left. now apply nan_spec.
  - exfalso. rewrite mul_spec, Hz in Hprod.
    destruct (Prim2SF a) as [[|] | [|] | | [|] m' e']; discriminate.
Qed.

Lemma mul_a_zero_l_any (z a : float) :
  a_zero z -> (z * a)%float = nan \/ a_zero (z * a).
Proof.
  intros [s Hz].
  destruct (Prim2SF (z * a)) as [s' | s' | | s' m e] eqn:Hprod.
  - right. now exists s'.
  - exfalso. rewrite mul_spec, Hz in Hprod.
    destruct (Prim2SF a) as [[|] | [|] | | [|] m e]; discriminate.
  - left. now apply nan_spec.
  - exfalso. rewrite mul_spec, Hz in Hprod.
    destruct (Prim2SF a) as [[|] | [|] | | [|] m' e']; discriminate.
Qed.

Lemma sqrt_nan : sqrt nan = nan.
Proof. reflexivity. Qed.

Lemma sqrt_a_zero (z : float) : a_zero z -> (sqrt z =? zero)%float = true.
Proof.
  intros [s Hz]. rewrite FloatAxioms.eqb_spec, sqrt_spec, Hz.
  destruct s; reflexivity.
Qed.

(** ** Sums of few cells *)

Lemma neg_zero_dec (x : float) : {x = neg_zero} + {x <> neg_zero}.
Proof.
  destruct (Prim2SF x) as [[|] | s | | s m e] eqn:Hsf;
    try (right; intros ->; discriminate).
  left. apply neg_zero_spec, Hsf.
Qed.

Lemma pairwise_sum_small (fuel : nat) (a : list float) :
  (length a < 8)%nat -> pairwise_sum fuel a = fold_left PrimFloat.add a neg_zero.
Proof.
  intros Hlen. apply Nat.ltb_lt in Hlen.
  destruct fuel; cbn [pairwise_sum]; now rewrite Hlen.
Qed.

Lemma sums_agree_fold (s : list float) (numpy reference : float) :
  sums_agree numpy reference ->
  (zero + fold_left PrimFloat.add (fillna s) numpy)%float
  = fold_left PrimFloat.add (notna s) reference.
Proof.
  revert numpy reference.
  induction s as [|x s IH]; intros numpy reference Hsums.
  - cbn [fillna notna List.map List.filter fold_left].
    destruct Hsums as [[-> ->] | [<- Hnumpy]]; [reflexivity |].
    now apply add_zero_l.
  - unfold fillna, notna in *. cbn [List.map List.filter fold_left].
    destruct (is_nan x) eqn:Hnan; cbn [negb fold_left]; apply IH.
    + right. destruct Hsums as [[-> ->] | [<- Hnumpy]].
      * split; [reflexivity | discriminate].
      * rewrite add_zero_r by exact Hnumpy. now split.
    + destruct Hsums as [[-> ->] | [<- Hnumpy]].
      * rewrite add_neg_zero_l.
        destruct (neg_zero_dec x) as [-> | Hx]; [left; now split |].
        right. rewrite add_zero_l by exact Hx. now split.
      * right. split; [reflexivity | now apply add_not_neg_zero].
Qed.

(** On fewer than 8 cells numpy's sum is the sum of the cells that are
    numbers, added one after the other. *)
Lemma np_sum_small (s : list float) :
  (length s < 8)%nat -> np_sum (fillna s) = naive_sum (notna s).
Proof.
  intros Hlen. unfold np_sum, naive_sum.
  rewrite pairwise_sum_small
    by (unfold fillna; rewrite length_map; exact Hlen).
  apply sums_agree_fold. left. now split.
Qed.

Lemma mean_small (s : list float) :
  (length s < 8)%nat -> mean s = naive_mean_float s.
Proof.
  intros Hlen. unfold mean, naive_mean_float, count.
  rewrite (np_sum_small s Hlen).
  destruct (notna s); reflexivity.
Qed.

Lemma float_neq (x y : float) : Prim2SF x <> Prim2SF y -> x <> y.
Proof. intros Hsf ->. now apply Hsf. Qed.

(** ** Sums of whole numbers *)

Lemma float_of_int_0 : float_of_int 0 = zero.
Proof. reflexivity. Qed.

Lemma float_of_int_not_nan (z : Z) :
  0 <= z < 2 ^ 53 -> is_nan (float_of_int z) = false.
Proof.
  intros Hz. destruct (Z.eq_dec z 0) as [-> | Hz0]; [reflexivity |].
  rewrite is_nan_spec.
  destruct (float_of_int_represents z ltac:(lia)) as (m & -> & _).
  reflexivity.
Qed.

Lemma total_nonneg (zs : list Z) : Forall (fun z => 0 <= z) zs -> 0 <= total zs.
Proof.
  induction 1 as [|z zs Hz _ IH]; cbn [total fold_right]; [lia |].
  unfold total in IH. lia.
Qed.

Lemma total_app (zs zs' : list Z) : total (zs ++ zs') = total zs + total zs'.
Proof.
  unfold total. induction zs as [|z zs IH]; cbn [app fold_right]; lia.
Qed.

Lemma total_take_drop (n : nat) (zs : list Z) :
  total (take n zs) + total (drop n zs) = total zs.
Proof. now rewrite <- total_app, take_drop. Qed.

Lemma fold_add_ints (zs : list Z) (acc : Z) :
  0 <= acc -> Forall (fun z => 0 <= z) zs -> acc + total zs < 2 ^ 53 ->
  fold_left PrimFloat.add (List.map float_of_int zs) (float_of_int acc)
  = float_of_int (acc + total zs).
Proof.
  revert acc. induction zs as [|z zs IH]; intros acc Hacc Hzs Hsum.
  - cbn. f_equal. lia.
  - apply Forall_cons in Hzs as [Hz Hzs].
    pose proof (total_nonneg zs Hzs) as Hrest.
    cbn [List.map fold_left total fold_right] in *. fold (total zs) in *.
    rewrite float_of_int_add by lia.
    rewrite IH by (assumption || lia). f_equal. lia.
Qed.

Lemma total_zip_with (rz bz : list Z) :
  length bz = length rz ->
  total (zip_with Z.add rz bz) = total rz + total bz.
Proof.
  revert bz. induction rz as [|r rz IH]; intros [|b bz] Hlen;
    try discriminate; [reflexivity |].
  cbn [zip_with total fold_right]. fold (total (zip_with Z.add rz bz)).
  fold (total rz). fold (total bz). rewrite IH by (simpl in Hlen; lia). lia.
Qed.

Lemma zip_with_add_ints (rz bz : list Z) :
  Forall (fun z => 0 <= z) rz -> Forall (fun z => 0 <= z) bz ->
  total rz + total bz < 2 ^ 53 ->
  zip_with PrimFloat.add (List.map float_of_int rz) (List.map float_of_int bz)
  = List.map float_of_int (zip_with Z.add rz bz)
  /\ Forall (fun z => 0 <= z) (zip_with Z.add rz bz).
Proof.
  revert bz. induction rz as [|r rz IH]; intros [|b bz] Hrz Hbz Hsum;
    try (split; [reflexivity | constructor]).
  apply Forall_cons in Hrz as [Hr Hrz]. apply Forall_cons in Hbz as [Hb Hbz].
  pose proof (total_nonneg rz Hrz). pose proof (total_nonneg bz Hbz).
  cbn [total fold_right] in Hsum. fold (total rz) in Hsum.
  fold (total bz) in Hsum.
  destruct (IH bz Hrz Hbz ltac:(lia)) as [IHeq IHpos].
  cbn [List.map zip_with]. rewrite IHeq, float_of_int_add by lia.
  split; [reflexivity | constructor; [lia | exact IHpos]].
Qed.

Lemma unrolled_loop_ints (k : nat) (rz az : list Z) :
  length rz = 8%nat -> (8 * k <= length az)%nat ->
  Forall (fun z => 0 <= z) rz -> Forall (fun z => 0 <= z) az ->
  total rz + total az < 2 ^ 53 ->
  exists rz' az' : list Z,
    unrolled_loop k (List.map float_of_int rz) (List.map float_of_int az)
    = (List.map float_of_int rz', List.map float_of_int az')
    /\ length rz' = 8%nat
    /\ Forall (fun z => 0 <= z) rz' /\ Forall (fun z => 0 <= z) az'
    /\ total rz' + total az' = total rz + total az.
Proof.
  revert rz az. induction k as [|k IH]; intros rz az Hlen Hk Hrz Haz Hsum.
  - exists rz, az. now repeat split.
  - cbn [unrolled_loop].
    assert (Htake : length (take 8 az) = 8%nat) by (rewrite length_take; lia).
    pose proof (total_take_drop 8 az) as Hsplit.
    assert (Hblock : Forall (fun z => 0 <= z) (take 8 az))
      by now apply Forall_take.
    assert (Hrest : Forall (fun z => 0 <= z) (drop 8 az))
      by now apply Forall_drop.
    pose proof (total_nonneg _ Hblock). pose proof (total_nonneg _ Hrest).
    destruct (zip_with_add_ints rz (take 8 az) Hrz Hblock ltac:(lia))
      as [Hzip Hpos].
    rewrite <- !fmap_take, <- !fmap_drop.
    change (float_of_int <$> take 8 az) with (List.map float_of_int (take 8 az)).
    change (float_of_int <$> drop 8 az) with (List.map float_of_int (drop 8 az)).
    rewrite Hzip.
    destruct (IH (zip_with Z.add rz (take 8 az)) (drop 8 az))
      as (rz' & az' & Hloop & Hlen' & Hrz' & Haz' & Htotal).
    + rewrite length_zip_with. lia.
    + rewrite length_drop. lia.
    + exact Hpos.
    + exact Hrest.
    + rewrite total_zip_with by lia. lia.
    + exists rz', az'. split; [exact Hloop |]. repeat split; try assumption.
      rewrite Htotal, total_zip_with by lia. lia.
Qed.

Lemma pairwise_block_ints (zs : list Z) :
  (8 <= length zs)%nat -> Forall (fun z => 0 <= z) zs -> total zs < 2 ^ 53 ->
  pairwise_block (List.map float_of_int zs) = float_of_int (total zs).
Proof.
  intros Hlen Hzs Hsum. unfold pairwise_block.
  rewrite length_map.
  pose proof (total_take_drop 8 zs) as Hsplit.
  pose proof (Nat.Div0.mul_div_le (length zs) 8) as Hdiv.
  assert (Hone : (1 <= length zs / 8)%nat)
    by (apply (Nat.Div0.div_le_mono 8 (length zs) 8) in Hlen; exact Hlen).
  rewrite <- fmap_take, <- fmap_drop.
  change (float_of_int <$> take 8 zs) with (List.map float_of_int (take 8 zs)).
  change (float_of_int <$> drop 8 zs) with (List.map float_of_int (drop 8 zs)).
  destruct (unrolled_loop_ints (length zs / 8 - 1) (take 8 zs) (drop 8 zs))
    as (rz & az & -> & Hlen' & Hrz & Haz & Htotal).
  - rewrite length_take. lia.
  - rewrite length_drop. lia.
  - now apply Forall_take.
  - now apply Forall_drop.
  - lia.
  - destruct rz as [|r0 [|r1 [|r2 [|r3 [|r4 [|r5 [|r6 [|r7 [|]]]]]]]]];
      try discriminate.
    pose proof (total_nonneg az Haz) as Hrest.
    repeat (apply Forall_cons in Hrz as [? Hrz]).
    cbn [total fold_right] in Htotal. fold (total az) in Htotal.
    cbn [List.map].
    rewrite !float_of_int_add by lia.
    rewrite fold_add_ints by (assumption || lia).
    f_equal. lia.
Qed.

Lemma pairwise_sum_unfold (fuel : nat) (a : list float) :
  pairwise_sum fuel a
  = if (length a <? 8)%nat then fold_left PrimFloat.add a neg_zero
    else if (length a <=? 128)%nat then pairwise_block a
    else
      match fuel with
      | O => nan
      | S fuel' =>
          let n2 := (length a / 2 - (length a / 2) mod 8)%nat in
          (pairwise_sum fuel' (take n2 a) + pairwise_sum fuel' (drop n2 a))%float
      end.
Proof. destruct fuel; reflexivity. Qed.

Lemma pairwise_sum_ints (fuel : nat) (zs : list Z) :
  (length zs <= fuel)%nat -> zs <> [] ->
  Forall (fun z => 0 <= z) zs -> total zs < 2 ^ 53 ->
  pairwise_sum fuel (List.map float_of_int zs) = float_of_int (total zs).
Proof.
  revert zs. induction fuel as [|fuel IH]; intros zs Hfuel Hne Hzs Hsum;
    rewrite pairwise_sum_unfold, length_map.
  - destruct zs; [contradiction | simpl in Hfuel; lia].
  - destruct (Nat.ltb_spec (length zs) 8) as [Hsmall | Hbig].
    { destruct zs as [|z zs]; [contradiction |].
      apply Forall_cons in Hzs as [Hz Hzs].
      cbn [List.map fold_left]. rewrite add_neg_zero_l.
      apply fold_add_ints; assumption. }
    destruct (Nat.leb_spec (length zs) 128) as [Hblock | Hlarge].
    { now apply pairwise_block_ints. }
    cbv zeta.
    set (n2 := (length zs / 2 - (length zs / 2) mod 8)%nat).
    pose proof (Nat.Div0.div_mod (length zs) 2) as Hhalf.
    pose proof (Nat.mod_upper_bound (length zs) 2 ltac:(lia)) as Hrem.
    pose proof (Nat.mod_upper_bound (length zs / 2) 8 ltac:(lia)) as Hrem8.
    assert (Hn2 : (57 <= n2 /\ n2 < length zs)%nat) by (unfold n2; lia).
    pose proof (total_take_drop n2 zs) as Hsplit.
    assert (Hfirst : Forall (fun z => 0 <= z) (take n2 zs))
      by now apply Forall_take.
    assert (Hsecond : Forall (fun z => 0 <= z) (drop n2 zs))
      by now apply Forall_drop.
    pose proof (total_nonneg _ Hfirst). pose proof (total_nonneg _ Hsecond).
    rewrite <- fmap_take, <- fmap_drop.
    change (float_of_int <$> take n2 zs)
      with (List.map float_of_int (take n2 zs)).
    change (float_of_int <$> drop n2 zs)
      with (List.map float_of_int (drop n2 zs)).
    rewrite !IH.
    + rewrite float_of_int_add by lia. f_equal. exact Hsplit.
    + rewrite length_drop. lia.
    + intros Hnil. apply (f_equal length) in Hnil.
      rewrite length_drop in Hnil. simpl in Hnil. lia.
    + exact Hsecond.
    + lia.
    + rewrite length_take. lia.
    + intros Hnil. apply (f_equal length) in Hnil.
      rewrite length_take in Hnil. simpl in Hnil. lia.
    + exact Hfirst.
    + lia.
Qed.

(** numpy's sum of whole numbers that are not negative is their sum, as
    long as it stays below 2^53: every partial sum is exact. *)
Lemma np_sum_ints (zs : list Z) :
  Forall (fun z => 0 <= z) zs -> total zs < 2 ^ 53 ->
  np_sum (List.map float_of_int zs) = float_of_int (total zs).
Proof.
  intros Hzs Hsum. unfold np_sum. rewrite length_map.
  destruct zs as [|z zs]; [reflexivity |].
  rewrite pairwise_sum_ints by (try assumption; try lia; discriminate).
  pose proof (total_nonneg _ Hzs).
  rewrite <- float_of_int_0, float_of_int_add by lia. reflexivity.
Qed.

Lemma buffers_sum (fuel : nat) (zs : list Z) (acc : Z) :
  0 <= acc -> Forall (fun z => 0 <= z) zs -> acc + total zs < 2 ^ 53 ->
  fold_left
    (fun res buffer =>
       (res + pairwise_sum (length buffer) (List.map float_of_int buffer))%float)
    (buffers fuel zs) (float_of_int acc)
  = float_of_int (acc + total zs).
Proof.
  revert zs acc. induction fuel as [|fuel IH]; intros zs acc Hacc Hzs Hsum.
  - destruct zs as [|z zs]; cbn [buffers fold_left].
    + f_equal. cbn. lia.
    + pose proof (total_nonneg _ Hzs).
      rewrite pairwise_sum_ints by (try assumption; try lia; discriminate).
      now rewrite float_of_int_add by lia.
  - destruct zs as [|z zs]; cbn [buffers fold_left].
    + f_equal. cbn. lia.
    + set (l := z :: zs) in *.
      pose proof (total_take_drop buffersize l) as Hsplit.
      assert (Hfirst : Forall (fun z => 0 <= z) (take buffersize l))
        by now apply Forall_take.
      assert (Hsecond : Forall (fun z => 0 <= z) (drop buffersize l))
        by now apply Forall_drop.
      pose proof (total_nonneg _ Hfirst). pose proof (total_nonneg _ Hsecond).
      rewrite pairwise_sum_ints; try assumption; try lia.
      * rewrite float_of_int_add by lia.
        rewrite IH by (assumption || lia). f_equal. lia.
      * intros Hnil. apply (f_equal length) in Hnil.
        rewrite length_take in Hnil. unfold l, buffersize in Hnil.
        simpl length in Hnil.
        assert (0 < 2 ^ 13)%nat by (apply Nat.neq_0_lt_0, Nat.pow_nonzero; lia).
        lia.
Qed.

Lemma np_sum_cast_ints (zs : list Z) :
  Forall (fun z => 0 <= z) zs -> total zs < 2 ^ 53 ->
  np_sum_cast zs = float_of_int (total zs).
Proof.
  intros Hzs Hsum. unfold np_sum_cast.
  rewrite <- float_of_int_0, buffers_sum by (assumption || lia).
  reflexivity.
Qed.

(** ** KPI means *)

(** C7, as the code has it: on a non-empty filtered table the coffee KPI
    that the run shows is [round(m, 2)] of the mean [m] that pandas
    computes in binary64, where the intakes are added in numpy's
    pairwise order.  On fewer than 8 rows that mean is the reference
    mean: the intakes added one after the other, over their number. *)
Theorem kpi_coffee_pairwise_mean (data : DataFrame) (inp : inputs) :
  let fd := filtered_data data (countries inp) (genders inp) (age_range inp) in
  let intakes := float64 (column Coffee_Intake fd) in
  empty fd = false ->
  page (run data inp).2 !! 2%nat
  = Some (st_metric "平均咖啡摄入量 (cups/day)" (round2 (mean intakes)))
  /\ ((length (records fd) < 8)%nat ->
      mean intakes = naive_mean_float intakes
      /\ page (run data inp).2 !! 2%nat
         = Some (st_metric "平均咖啡摄入量 (cups/day)"
                   (round2 (naive_mean_float intakes)))).
Proof.
  intros fd intakes Hempty. rewrite (run_nonempty data inp Hempty).
  cbn [snd raised page lookup list_lookup]. fold fd.
  split; [reflexivity |]. intros Hrows.
  assert (Hmean : mean intakes = naive_mean_float intakes).
  { apply mean_small. unfold intakes, float64, column.
    now rewrite !length_map. }
  split; [exact Hmean |]. unfold kpi_coffee.
  change (float64 (column Coffee_Intake (derived fd))) with intakes.
  now rewrite Hmean.
Qed.

Lemma kpi_coffee_pairwise_mean_witness :
  let inp := select ["US"] ["Male"; "Female"] 20 60 in
  empty (filtered_data scenario (countries inp) (genders inp) (age_range inp))
  = false
  /\ page (run scenario inp).2 !! 2%nat
     = Some (st_metric "平均咖啡摄入量 (cups/day)" 2%float).
Proof.
  intros inp.
  assert (Hempty : empty (filtered_data scenario (countries inp)
                                        (genders inp) (age_range inp))
                   = false) by reflexivity.
  split; [exact Hempty |].
  exact (proj1 (kpi_coffee_pairwise_mean scenario inp Hempty)).
Defined.

(** C7 as stated fails on the code.  Eight selected rows with the intakes
    2.6, 2.2, 3.8, 5.5, 6.8, 2.0, 0.6 and 3.1 show the KPI 3.32; the
    reference mean of these intakes is another number, and it rounds to
    3.33. *)
Lemma kpi_coffee_differs_from_naive :
  let inp := select ["US"] ["Male"] 20 60 in
  let fd := filtered_data eight (countries inp) (genders inp) (age_range inp) in
  let intakes := float64 (column Coffee_Intake fd) in
  empty fd = false
  /\ exists kpi : float,
       page (run eight inp).2 !! 2%nat
       = Some (st_metric "平均咖啡摄入量 (cups/day)" kpi)
       /\ kpi = to_float 3.32
       /\ kpi <> naive_mean_float intakes
       /\ kpi <> round2 (naive_mean_float intakes)
       /\ round2 (naive_mean_float intakes) = to_float 3.33.
Proof.
  split; [reflexivity |]. exists (to_float 3.32).
  split; [vm_compute; reflexivity |]. split; [reflexivity |].
  split; [| split]; try (vm_compute; reflexivity);
    apply float_neq; vm_compute; discriminate.
Qed.

(** ** The stress KPI *)

Lemma stress_index_range (level : string) (z : Z) :
  stress_level_mapping !! level = Some z -> 1 <= z <= 3.
Proof.
  rewrite stress_level_mapping_lookup.
  repeat case_decide; intros [= <-]; lia.
Qed.

Lemma omap_stress_index (rows : list row) :
  omap (fun c => c) (series_map (List.map Stress_Level rows)
                                stress_level_mapping)
  = stress_indices rows.
Proof.
  unfold series_map, stress_indices.
  induction rows as [|r rows IH]; [reflexivity |].
  cbn [List.map List.filter omap list_omap]. unfold recognized at 1.
  destruct (stress_level_mapping !! Stress_Level r) as [z|] eqn:Hz.
  - rewrite bool_decide_eq_true_2
      by (apply stress_level_known; rewrite Hz; eauto).
    cbn. rewrite Hz. cbn. f_equal. exact IH.
  - rewrite bool_decide_eq_false_2
      by (rewrite stress_level_known, Hz; intros [? [=]]).
    exact IH.
Qed.

Lemma indices_total (si : list (option Z)) :
  Forall (fun c => forall z, c = Some z -> 1 <= z <= 3) si ->
  Forall (fun z => 0 <= z) (omap (fun c => c) si)
  /\ total (omap (fun c => c) si) <= 3 * Z.of_nat (length si).
Proof.
  induction 1 as [|[z |] l Hc _ IH]; cbn [omap list_omap length].
  - split; [constructor | cbn; lia].
  - destruct IH as [IHpos IHsum]. specialize (Hc z eq_refl).
    split; [constructor; [lia | exact IHpos] |].
    cbn [total fold_right]. unfold total in IHsum. lia.
  - destruct IH as [IHpos IHsum]. split; [exact IHpos | lia].
Qed.

Lemma fillna_stress_array (si : list (option Z)) :
  Forall (fun c => forall z, c = Some z -> 1 <= z <= 3) si ->
  fillna (stress_array si) = List.map float_of_int (List.map (default 0) si)
  /\ total (List.map (default 0) si) = total (omap (fun c => c) si)
  /\ Forall (fun z => 0 <= z) (List.map (default 0) si)
  /\ count (stress_array si) = length (omap (fun c => c) si).
Proof.
  unfold fillna, stress_array, count, notna.
  induction 1 as [|[z |] l Hc _ IH];
    cbn [List.map List.filter omap list_omap default length].
  - split; [reflexivity |]. split; [reflexivity |].
    split; [constructor | reflexivity].
  - destruct IH as (IH1 & IH2 & IH3 & IH4). specialize (Hc z eq_refl).
    rewrite float_of_int_not_nan by lia. cbn [negb length].
    rewrite IH1, IH4. cbn [total fold_right] in *. unfold total in IH2.
    rewrite IH2. split; [reflexivity |]. split; [reflexivity |].
    split; [constructor; [simpl; lia | exact IH3] | reflexivity].
  - destruct IH as (IH1 & IH2 & IH3 & IH4).
    change (is_nan nan) with true. cbn [negb].
    rewrite IH1, IH4. cbn [total fold_right] in *. unfold total in IH2.
    rewrite IH2. split; [reflexivity |]. split; [reflexivity |].
    split; [constructor; [simpl; lia | exact IH3] | reflexivity].
Qed.

(** The mean of the stress index is the sum of the indices that are
    present over their number, one binary64 division of two whole
    numbers: the sum is exact whatever the order of the additions (0/0,
    NaN, when no index is present). *)
Lemma mean_Stress_Index_exact (si : list (option Z)) :
  Forall (fun c => forall z, c = Some z -> 1 <= z <= 3) si ->
  Z.of_nat (length si) < 2 ^ 51 ->
  mean_Stress_Index si
  = (float_of_int (total (omap (fun c => c) si))
     / float_of_count (length (omap (fun c => c) si)))%float.
Proof.
  intros Hrange Hlen. destruct (indices_total si Hrange) as [Hpos Hsum].
  destruct (fillna_stress_array si Hrange)
    as (Hfill & Htotal & Hfilled & Hcount).
  unfold mean_Stress_Index.
  destruct (forallb _ si).
  - unfold mean_int64. rewrite np_sum_cast_ints by (assumption || lia).
    destruct (omap (fun c => c) si); reflexivity.
  - unfold mean. rewrite Hfill, Hcount, np_sum_ints by (assumption || lia).
    rewrite Htotal.
    destruct (omap (fun c => c) si); reflexivity.
Qed.

Lemma series_map_range (levels : list string) :
  Forall (fun c => forall z, c = Some z -> 1 <= z <= 3)
         (series_map levels stress_level_mapping).
Proof.
  unfold series_map. apply Forall_forall. intros c Hc z ->.
  apply list_elem_of_In, in_map_iff in Hc as [level [Hlevel _]].
  now apply (stress_index_range level).
Qed.

Lemma kpi_stress_exact (rows : list row) :
  Z.of_nat (length rows) < 2 ^ 51 ->
  kpi_stress (series_map (List.map Stress_Level rows) stress_level_mapping)
  = round2 (float_of_int (total (stress_indices rows))
            / float_of_count (length (stress_indices rows))).
Proof.
  intros Hlen. unfold kpi_stress.
  rewrite mean_Stress_Index_exact, omap_stress_index.
  - reflexivity.
  - apply series_map_range.
  - unfold series_map. now rewrite !length_map.
Qed.

(** C10, as the code has it: on a non-empty filtered table the stress KPI
    that the run shows is [round(S / k, 2)] in binary64, [S] being the sum
    and [k] the number of the stress indices of the rows whose stress
    level is Low, Medium or High; the other rows are left out of it and no
    warning is shown; when no row has such a level the KPI is NaN. *)
Theorem kpi_stress_recognized_only (data : DataFrame) (inp : inputs) :
  let fd := filtered_data data (countries inp) (genders inp) (age_range inp) in
  let indices := stress_indices (records fd) in
  empty fd = false ->
  Z.of_nat (length (records fd)) < 2 ^ 51 ->
  page (run data inp).2 !! 4%nat
  = Some (st_metric "平均压力指数"
            (round2 (float_of_int (total indices)
                     / float_of_count (length indices))))
  /\ (List.filter recognized (records fd) = [] ->
      page (run data inp).2 !! 4%nat = Some (st_metric "平均压力指数" nan))
  /\ Forall (fun e => is_warning e = false) (page (run data inp).2).
Proof.
  intros fd indices Hempty Hrows. rewrite (run_nonempty data inp Hempty).
  cbn [snd raised page lookup list_lookup]. fold fd.
  unfold column. rewrite (kpi_stress_exact (records fd) Hrows). fold indices.
  split; [reflexivity |]. split.
  - intros Hnone. unfold indices, stress_indices. rewrite Hnone. reflexivity.
  - repeat constructor.
Qed.

Lemma kpi_stress_recognized_only_witness :
  let data := table [ person "US" "Male" 25 2 "Low";
                      person "US" "Male" 30 2 "Extreme";
                      person "US" "Male" 35 2 "High" ] in
  let inp := select ["US"] ["Male"] 20 60 in
  empty (filtered_data data (countries inp) (genders inp) (age_range inp))
  = false
  /\ page (run data inp).2 !! 4%nat = Some (st_metric "平均压力指数" 2%float).
Proof.
  intros data inp.
  assert (Hempty : empty (filtered_data data (countries inp) (genders inp)
                                        (age_range inp)) = false)
    by reflexivity.
  assert (Hrows : Z.of_nat (length (records
                     (filtered_data data (countries inp) (genders inp)
                                    (age_range inp)))) < 2 ^ 51)
    by reflexivity.
  split; [exact Hempty |].
  exact (proj1 (kpi_stress_recognized_only data inp Hempty Hrows)).
Defined.

(** C10 as stated fails on the code: three selected rows with the levels
    Low, Low and Medium have the mean index 4/3, and the KPI shown is
    1.33. *)
Lemma kpi_stress_not_plain_mean :
  let inp := select ["US"] ["Male"] 20 60 in
  let fd := filtered_data thirds (countries inp) (genders inp) (age_range inp) in
  let indices := stress_indices (records fd) in
  indices = [1; 1; 2]
  /\ exists kpi : float,
       page (run thirds inp).2 !! 4%nat = Some (st_metric "平均压力指数" kpi)
       /\ kpi = to_float 1.33
       /\ kpi <> (float_of_int (total indices)
                  / float_of_count (length indices))%float.
Proof.
  split; [reflexivity |]. exists (to_float 1.33).
  split; [vm_compute; reflexivity |]. split; [reflexivity |].
  apply float_neq. vm_compute. discriminate.
Qed.

(** The rounding is that of binary64: 197 rows of low and 3 rows of medium
    stress have the mean index 203/200, which is 1.0149999999999999 as a
    float64, and the KPI shown is 1.01. *)
Example kpi_stress_mostly_low :
  let inp := select ["US"] ["Male"] 20 60 in
  page (run mostly_low inp).2 !! 4%nat
  = Some (st_metric "平均压力指数" (to_float 1.01))
  /\ total (stress_indices (records mostly_low)) = 203
  /\ length (stress_indices (records mostly_low)) = 200%nat.
Proof. vm_compute. repeat split; reflexivity. Qed.

(** ** The loaded table is never changed *)

Section frame.
Variable data : DataFrame.

Lemma source_kept_loaded : source_kept data (loaded data).
Proof.
  split; [reflexivity |]. split; [reflexivity |].
  intros name Hname. cbn [loaded globals].
  rewrite lookup_singleton_ne by congruence. discriminate.
Qed.

Lemma keeps_bind {A B : Type} (m : M A) (f : A -> M B) (Q : A -> Prop)
    (Q' : B -> Prop) :
  keeps_source data m Q ->
  (forall x : A, Q x -> keeps_source data (f x) Q') ->
  keeps_source data (bind m f) Q'.
Proof.
  intros Hm Hf s Hs. destruct (Hm s Hs) as [Hkept Hres].
  unfold bind. destruct (m s) as [[e | x] s'] eqn:Hms; simpl in *.
  - split; [exact Hkept | discriminate].
  - apply (Hf x (Hres x eq_refl) s' Hkept).
Qed.

Lemma keeps_ret {A : Type} (x : A) (Q : A -> Prop) :
  Q x -> keeps_source data (ret x) Q.
Proof. intros HQ s Hs. split; [exact Hs | now intros y [= <-]]. Qed.

Lemma keeps_raise {A : Type} (e : exception) (Q : A -> Prop) :
  keeps_source data (raise e) Q.
Proof. intros s Hs. split; [exact Hs | discriminate]. Qed.

Lemma keeps_emit (e : element) : keeps_source data (emit e) (fun _ => True).
Proof. intros s Hs. split; [exact Hs | trivial]. Qed.

(** A new object is never at the address of the loaded table. *)
Lemma keeps_alloc (o : object) :
  keeps_source data (alloc o) (fun a => a <> 0%nat).
Proof.
  intros s (Hheap & Hdata & Hnames). split.
  - split; [| split; assumption]. cbn [alloc snd heap].
    apply lookup_app_l_Some. exact Hheap.
  - intros a [= <-]. apply lookup_lt_Some in Hheap. lia.
Qed.

(** Binding a name other than [data] to another object. *)
Lemma keeps_assign (name : string) (a : nat) :
  name <> "data" -> a <> 0%nat ->
  keeps_source data (assign name a) (fun _ => True).
Proof.
  intros Hname Ha s (Hheap & Hdata & Hnames). split; [| trivial].
  split; [exact Hheap |]. cbn [assign snd globals]. split.
  - rewrite lookup_insert_ne by exact Hname. exact Hdata.
  - intros name' Hname'. destruct (decide (name = name')) as [<- | Hne].
    + rewrite lookup_insert_eq. congruence.
    + rewrite lookup_insert_ne by exact Hne. apply Hnames, Hname'.
Qed.

(** The frame read through a name other than [data] is not the loaded
    one. *)
Lemma keeps_frame (name : string) :
  name <> "data" ->
  keeps_source data (frame name) (fun f => f.1 <> 0%nat).
Proof.
  intros Hname s Hs. pose proof Hs as (Hheap & Hdata & Hnames).
  unfold frame, bind, name_.
  destruct (globals s !! name) as [a |] eqn:Ha;
    [| split; [exact Hs | discriminate]].
  destruct (heap s !! a) as [[df | | | |] |];
    (split; [exact Hs | try discriminate]).
  intros f [= <-]. simpl. intros ->. apply (Hnames name Hname Ha).
Qed.

Lemma keeps_frame_any (name : string) :
  keeps_source data (frame name) (fun _ => True).
Proof.
  intros s Hs. unfold frame, bind, name_.
  destruct (globals s !! name) as [a |]; [| split; [exact Hs | trivial]].
  destruct (heap s !! a) as [[df | | | |] |]; (split; [exact Hs | trivial]).
Qed.

Lemma keeps_object_ (name : string) :
  keeps_source data (object_ name) (fun _ => True).
Proof.
  intros s Hs. unfold object_, bind, name_.
  destruct (globals s !! name) as [a |]; [| split; [exact Hs | trivial]].
  destruct (heap s !! a); (split; [exact Hs | trivial]).
Qed.

(** Changing in place an object other than the loaded table. *)
Lemma keeps_mutate (a : nat) (o : object) :
  a <> 0%nat -> keeps_source data (mutate a o) (fun _ => True).
Proof.
  intros Ha s (Hheap & Hdata & Hnames). split; [| trivial].
  split; [| split; assumption]. cbn [mutate snd heap].
  rewrite list_lookup_insert_ne by exact Ha. exact Hheap.
Qed.

Lemma keeps_alloc_assign (name : string) (o : object) :
  name <> "data" ->
  keeps_source data (let* a := alloc o in assign name a) (fun _ => True).
Proof.
  intros Hname. eapply keeps_bind; [apply keeps_alloc |].
  intros a Ha. now apply keeps_assign.
Qed.

Lemma keeps_run_operation (op : operation) :
  keeps_source data (run_operation op) (fun _ => True).
Proof.
  destruct op; unfold run_operation.
  - eapply keeps_bind; [apply keeps_frame_any |]. intros d _.
    now apply keeps_alloc_assign.
  - eapply keeps_bind; [apply keeps_frame_any |]. intros f _.
    now apply keeps_alloc_assign.
  - eapply keeps_bind; [apply (keeps_frame "filtered_data"); discriminate |].
    intros f Hf. now apply keeps_mutate.
  - eapply keeps_bind; [apply (keeps_frame "filtered_data"); discriminate |].
    intros f Hf. now apply keeps_mutate.
  - eapply keeps_bind; [apply keeps_frame_any |]. intros f _.
    eapply keeps_bind; [apply keeps_emit |]. intros _ _.
    eapply keeps_bind; [apply keeps_emit |]. intros _ _.
    destruct (Stress_Index f.2); [| apply keeps_raise].
    eapply keeps_bind; [apply keeps_emit |]. intros _ _. apply keeps_emit.
  - eapply keeps_bind; [apply keeps_frame_any |]. intros f _.
    now apply keeps_alloc_assign.
  - eapply keeps_bind; [apply keeps_frame_any |]. intros f _.
    now apply keeps_alloc_assign.
  - eapply keeps_bind; [apply keeps_frame_any |]. intros f _.
    destruct (corr f.2); [| apply keeps_raise].
    now apply keeps_alloc_assign.
  - eapply keeps_bind; [apply keeps_frame_any |]. intros f _.
    now apply keeps_alloc_assign.
Qed.

Lemma keeps_run_operations (ops : list operation) :
  keeps_source data (run_operations ops) (fun _ => True).
Proof.
  induction ops as [|op ops IH]; simpl.
  - now apply keeps_ret.
  - eapply keeps_bind; [apply keeps_run_operation |]. intros _ _. exact IH.
Qed.

End frame.

Ltac keeps :=
  lazymatch goal with
  | |- keeps_source _ (bind _ _) _ =>
      eapply (keeps_bind _ _ _ (fun _ => True)); [keeps | intros ? _; keeps]
  | |- keeps_source _ (if ?b then _ else _) _ => destruct b; keeps
  | |- keeps_source _ (match ?o with _ => _ end) _ => destruct o; keeps
  | |- keeps_source _ (emit _) _ => apply keeps_emit
  | |- keeps_source _ (raise _) _ => apply keeps_raise
  | |- keeps_source _ (ret _) _ => apply keeps_ret; exact I
  | |- keeps_source _ (run_operation _) _ => apply keeps_run_operation
  | |- keeps_source _ (frame _) _ => apply keeps_frame_any
  | |- keeps_source _ (object_ _) _ => apply keeps_object_
  end.

Lemma keeps_script (data : DataFrame) (inp : inputs) :
  keeps_source data (script inp) (fun _ => True).
Proof.
  unfold script, tab1, tab2, tab3, tab4, tab5, footer. keeps.
Qed.

Lemma frame_inv (name : string) (s s' : state) (r : exception + nat * DataFrame) :
  frame name s = (r, s') ->
  s' = s /\ forall f, r = inr f -> globals s !! name = Some f.1.
Proof.
  unfold frame, bind, name_.
  destruct (globals s !! name) as [a |]; [| intros [= <- <-]; now split].
  destruct (heap s !! a) as [[df | | | |] |]; intros [= <- <-];
    (split; [reflexivity | try discriminate]).
  now intros f [= <-].
Qed.

(** An operation changes in place no object but the one [filtered_data]
    names; what else it produces is a new object. *)
Lemma run_operation_writes (op : operation) (s : state) (a : nat) (o : object) :
  heap s !! a = Some o ->
  globals s !! "filtered_data" <> Some a ->
  heap (run_operation op s).2 !! a = Some o.
Proof.
  intros Ha Hname.
  assert (Happ : forall o', (heap s ++ [o'])%list !! a = Some o)
    by (intros o'; now apply lookup_app_l_Some).
  destruct op; unfold run_operation, bind at 1.
  - destruct (frame "data" s) as [[e | f] s'] eqn:Hf;
      apply frame_inv in Hf as [-> _]; [exact Ha | apply Happ].
  - destruct (frame "filtered_data" s) as [[e | f] s'] eqn:Hf;
      apply frame_inv in Hf as [-> _]; [exact Ha | apply Happ].
  - destruct (frame "filtered_data" s) as [[e | f] s'] eqn:Hf;
      apply frame_inv in Hf as [-> Hf]; [exact Ha |].
    cbn [mutate snd heap]. rewrite list_lookup_insert_ne; [exact Ha |].
    intros Heq. apply Hname. rewrite <- Heq. now apply Hf.
  - destruct (frame "filtered_data" s) as [[e | f] s'] eqn:Hf;
      apply frame_inv in Hf as [-> Hf]; [exact Ha |].
    cbn [mutate snd heap]. rewrite list_lookup_insert_ne; [exact Ha |].
    intros Heq. apply Hname. rewrite <- Heq. now apply Hf.
  - destruct (frame "filtered_data" s) as [[e | f] s'] eqn:Hf;
      apply frame_inv in Hf as [-> _]; [exact Ha |].
    destruct (Stress_Index f.2); exact Ha.
  - destruct (frame "filtered_data" s) as [[e | f] s'] eqn:Hf;
      apply frame_inv in Hf as [-> _]; [exact Ha | apply Happ].
  - destruct (frame "filtered_data" s) as [[e | f] s'] eqn:Hf;
      apply frame_inv in Hf as [-> _]; [exact Ha | apply Happ].
  - destruct (frame "filtered_data" s) as [[e | f] s'] eqn:Hf;
      apply frame_inv in Hf as [-> _]; [exact Ha |].
    destruct (corr f.2); [apply Happ | exact Ha].
  - destruct (frame "filtered_data" s) as [[e | f] s'] eqn:Hf;
      apply frame_inv in Hf as [-> _]; [exact Ha | apply Happ].
Qed.

Lemma frame_inr (name : string) (s s' : state) (a : nat) (df : DataFrame) :
  frame name s = (inr (a, df), s') ->
  s' = s /\ globals s !! name = Some a /\ heap s !! a = Some (ODataFrame df).
Proof.
  unfold frame, bind, name_.
  destruct (globals s !! name) as [a' |]; [| discriminate].
  destruct (heap s !! a') as [[df' | | | |] |] eqn:Hobj; try discriminate.
  intros [= <- <- <-]. now split.
Qed.

(** What an operation that ends normally does to the heap.  The filter,
    the copy and the aggregations add one object and leave the others as
    they are; the two column assignments change the table that
    [filtered_data] names where it is, and add none; the KPI means change
    nothing. *)
Lemma run_operation_heap (op : operation) (s : state) :
  (run_operation op s).1 = inr tt ->
  match op with
  | Derive_Stress_Index =>
      exists (a : nat) (df : DataFrame),
        globals s !! "filtered_data" = Some a
        /\ heap s !! a = Some (ODataFrame df)
        /\ heap (run_operation op s).2
           = <[a := ODataFrame
                      (setitem_Stress_Index df
                         (series_map (column Stress_Level df)
                                     stress_level_mapping))]> (heap s)
  | Derive_Activity_Bins =>
      exists (a : nat) (df : DataFrame),
        globals s !! "filtered_data" = Some a
        /\ heap s !! a = Some (ODataFrame df)
        /\ heap (run_operation op s).2
           = <[a := ODataFrame
                      (setitem_Activity_Bins df
                         (List.map Activity_Bin
                            (column Physical_Activity_Hours df)))]> (heap s)
  | Kpi_means => heap (run_operation op s).2 = heap s
  | _ => exists o : object, heap (run_operation op s).2 = (heap s ++ [o])%list
  end.
Proof.
  destruct op; unfold run_operation; unfold bind;
    match goal with
    | |- context [frame ?name s] =>
        destruct (frame name s) as [[e | [a df]] s'] eqn:Hf;
          [discriminate | apply frame_inr in Hf as (-> & Hname & Hobj)]
    end; cbn [fst snd]; intros Hend.
  - eexists. reflexivity.
  - eexists. reflexivity.
  - exists a, df. now split.
  - exists a, df. now split.
  - unfold bind, emit. cbn [fst snd heap].
    destruct (Stress_Index df); reflexivity.
  - eexists. reflexivity.
  - eexists. reflexivity.
  - destruct (corr df); [| discriminate]. eexists. reflexivity.
  - eexists. reflexivity.
Qed.

(** C8, as the code has it: the loaded table is never changed.  After any
    sequence of the operations (filtering, copying, deriving the stress
    index, binning the activity, the KPI means, the group-by means, the
    correlation), and after any run of the script, the object that
    [data] names is the table as it was loaded, and [filtered_data]
    never names that object.  Each operation leaves every existing
    object as it is, other than the derived table that [filtered_data]
    names.  The filter, the copy and the aggregations produce a new
    object; the stress index and the activity bins do not: they are
    assigned, in place, to the derived table that [filtered_data]
    names. *)
Theorem source_never_mutated (data : DataFrame) (ops : list operation)
    (inp : inputs) :
  let after_ops := (run_operations ops (loaded data)).2 in
  let after_run := (run data inp).2 in
  (heap after_ops !! 0%nat = Some (ODataFrame data)
   /\ globals after_ops !! "data" = Some 0%nat
   /\ globals after_ops !! "filtered_data" <> Some 0%nat)
  /\ (heap after_run !! 0%nat = Some (ODataFrame data)
      /\ globals after_run !! "data" = Some 0%nat
      /\ globals after_run !! "filtered_data" <> Some 0%nat)
  /\ (forall (op : operation) (s : state) (a : nat) (o : object),
        heap s !! a = Some o ->
        globals s !! "filtered_data" <> Some a ->
        heap (run_operation op s).2 !! a = Some o)
  /\ (forall (op : operation) (s : state),
        (run_operation op s).1 = inr tt ->
        match op with
        | Derive_Stress_Index =>
            exists (a : nat) (df : DataFrame),
              globals s !! "filtered_data" = Some a
              /\ heap s !! a = Some (ODataFrame df)
              /\ heap (run_operation op s).2
                 = <[a := ODataFrame
                            (setitem_Stress_Index df
                               (series_map (column Stress_Level df)
                                           stress_level_mapping))]> (heap s)
        | Derive_Activity_Bins =>
            exists (a : nat) (df : DataFrame),
              globals s !! "filtered_data" = Some a
              /\ heap s !! a = Some (ODataFrame df)
              /\ heap (run_operation op s).2
                 = <[a := ODataFrame
                            (setitem_Activity_Bins df
                               (List.map Activity_Bin
                                  (column Physical_Activity_Hours df)))]>
                     (heap s)
        | Kpi_means => heap (run_operation op s).2 = heap s
        | _ =>
            exists o : object,
              heap (run_operation op s).2 = (heap s ++ [o])%list
        end).
Proof.
  intros after_ops after_run.
  destruct (keeps_run_operations data ops (loaded data)
              (source_kept_loaded data)) as [(H1 & H2 & H3) _].
  destruct (keeps_script data inp (loaded data)
              (source_kept_loaded data)) as [(H4 & H5 & H6) _].
  split; [| split; [| split]].
  - split; [exact H1 |]. split; [exact H2 |]. apply H3. discriminate.
  - split; [exact H4 |]. split; [exact H5 |]. apply H6. discriminate.
  - exact run_operation_writes.
  - exact run_operation_heap.
Qed.

(** C8 as stated fails on the code: not every operation produces a new
    table.  After the filter and the copy on the scenario, deriving the
    stress index adds no object to the three that exist and binds no
    name; the table that [filtered_data] names is changed where it is. *)
Lemma derive_stress_index_in_place :
  let s := (run_operations [Filter ["US"] ["Male"; "Female"] (20, 60); Copy]
                           (loaded scenario)).2 in
  let s' := (run_operation Derive_Stress_Index s).2 in
  (run_operation Derive_Stress_Index s).1 = inr tt
  /\ length (heap s) = 3%nat
  /\ length (heap s') = 3%nat
  /\ globals s' = globals s
  /\ globals s !! "filtered_data" = Some 2%nat
  /\ heap s !! 2%nat
     = Some (ODataFrame (table [person "US" "Male" 25 2 "Low"]))
  /\ heap s' !! 2%nat
     = Some (ODataFrame (derived (table [person "US" "Male" 25 2 "Low"])))
  /\ heap s' !! 2%nat <> heap s !! 2%nat.
Proof. repeat split; try reflexivity. discriminate. Qed.

(** ** Group-by means *)







Section groupby_facts.
Context {K : Type} `{Countable K}.







End groupby_facts.





Example age_trend_scenario :
  age_trend scenario
  = [(25, Some 2%Q, Some 7%Q); (40, Some 3%Q, Some 7%Q);
     (70, Some 4%Q, Some 7%Q)].
Proof. reflexivity. Qed.

(** ** A constant column in the correlation pass *)

Lemma constant_x_step (c : float) (w : welford) (cells : float * float) :
  (is_finite cells.1 = true -> cells.1 = c) ->
  constant_x c w -> constant_x c (welford_step w cells).
Proof.
  intros Hc Hw. unfold welford_step.
  destruct (is_finite cells.1) eqn:Hfin; [| exact Hw].
  destruct (is_finite cells.2); [| exact Hw]. cbn [andb].
  rewrite (Hc eq_refl) in *. clear Hc.
  unfold constant_x. cbn [ssqdm_x meanx nobs].
  destruct Hw as [Hnan | [Hssq Hmean]].
  { left. rewrite Hnan. apply add_nan_l. }
  rewrite Hssq, Hmean.
  destruct (nobs w) as [|k].
  - change (one / float_of_count 1)%float with one.
    rewrite sub_zero_r, mul_one_l.
    right. split; [| reflexivity].
    apply add_zero_a_zero, mul_a_zero_l; [| exact Hfin].
    apply diff_a_zero, Hfin.
  - pose proof (diff_a_zero c Hfin) as Hdx.
    destruct (mul_a_zero_r (one / float_of_count (S (S k))) _ Hdx)
      as [Hnan | Hzero].
    + left. rewrite Hnan, add_nan_r, sub_nan_r, mul_nan_l. apply add_nan_r.
    + right. rewrite (mean_stays c _ Hfin Hzero).
      split; [| reflexivity].
      apply add_zero_a_zero, mul_a_zero_l; [exact Hdx |].
      apply a_zero_finite, Hdx.
Qed.

Lemma constant_x_fold (c : float) (pairs : list (float * float)) (w : welford) :
  Forall (fun p => is_finite p.1 = true -> p.1 = c) pairs ->
  constant_x c w -> constant_x c (fold_left welford_step pairs w).
Proof.
  revert w. induction pairs as [|p pairs IH]; intros w Hpairs Hw; [exact Hw |].
  apply Forall_cons in Hpairs as [Hp Hpairs].
  cbn [fold_left]. apply IH; [exact Hpairs |].
  now apply constant_x_step.
Qed.

Lemma constant_y_step (c : float) (w : welford) (cells : float * float) :
  (is_finite cells.2 = true -> cells.2 = c) ->
  constant_y c w -> constant_y c (welford_step w cells).
Proof.
  intros Hc Hw. unfold welford_step.
  destruct (is_finite cells.1); [| exact Hw].
  destruct (is_finite cells.2) eqn:Hfin; [| exact Hw]. cbn [andb].
  rewrite (Hc eq_refl) in *. clear Hc.
  unfold constant_y. cbn [ssqdm_y meany nobs].
  destruct Hw as [Hnan | [Hssq Hmean]].
  { left. rewrite Hnan. apply add_nan_l. }
  rewrite Hssq, Hmean.
  destruct (nobs w) as [|k].
  - change (one / float_of_count 1)%float with one.
    rewrite sub_zero_r, mul_one_l.
    right. split; [| reflexivity].
    apply add_zero_a_zero, mul_a_zero_l; [| exact Hfin].
    apply diff_a_zero, Hfin.
  - pose proof (diff_a_zero c Hfin) as Hdx.
    destruct (mul_a_zero_r (one / float_of_count (S (S k))) _ Hdx)
      as [Hnan | Hzero].
    + left. rewrite Hnan, add_nan_r, sub_nan_r, mul_nan_l. apply add_nan_r.
    + right. rewrite (mean_stays c _ Hfin Hzero).
      split; [| reflexivity].
      apply add_zero_a_zero, mul_a_zero_l; [exact Hdx |].
      apply a_zero_finite, Hdx.
Qed.

Lemma constant_y_fold (c : float) (pairs : list (float * float)) (w : welford) :
  Forall (fun p => is_finite p.2 = true -> p.2 = c) pairs ->
  constant_y c w -> constant_y c (fold_left welford_step pairs w).
Proof.
  revert w. induction pairs as [|p pairs IH]; intros w Hpairs Hw; [exact Hw |].
  apply Forall_cons in Hpairs as [Hp Hpairs].
  cbn [fold_left]. apply IH; [exact Hpairs |].
  now apply constant_y_step.
Qed.

Lemma clip_nan (cov : float) :
  (let val := (cov / nan)%float in
   if (one <? val)%float then one
   else if (val <? - one)%float then (- one)%float else val) = nan.
Proof. cbv zeta. rewrite div_nan_r. reflexivity. Qed.

Lemma coefficient_constant_x (c : float) (w : welford) :
  constant_x c w -> coefficient w = nan.
Proof.
  intros Hw. unfold coefficient.
  destruct (nobs w <? 1)%nat; [reflexivity |].
  assert (Hprod : (ssqdm_x w * ssqdm_y w)%float = nan
                  \/ a_zero (ssqdm_x w * ssqdm_y w)).
  { destruct Hw as [-> | [-> _]]; [left; apply mul_nan_l |].
    apply mul_a_zero_l_any, a_zero_zero. }
  destruct Hprod as [-> | Hzero].
  - rewrite sqrt_nan. change (nan =? zero)%float with false.
    apply clip_nan.
  - now rewrite (sqrt_a_zero _ Hzero).
Qed.

Lemma coefficient_constant_y (c : float) (w : welford) :
  constant_y c w -> coefficient w = nan.
Proof.
  intros Hw. unfold coefficient.
  destruct (nobs w <? 1)%nat; [reflexivity |].
  assert (Hprod : (ssqdm_x w * ssqdm_y w)%float = nan
                  \/ a_zero (ssqdm_x w * ssqdm_y w)).
  { destruct Hw as [-> | [-> _]]; [left; apply mul_nan_r |].
    apply mul_a_zero_r, a_zero_zero. }
  destruct Hprod as [-> | Hzero].
  - rewrite sqrt_nan. change (nan =? zero)%float with false.
    apply clip_nan.
  - now rewrite (sqrt_a_zero _ Hzero).
Qed.

(** ** The correlation matrix *)


Lemma nancorr_lookup (mat : list (list float)) (i j : nat) :
  (i < length mat)%nat -> (j < length mat)%nat ->
  matrix_entry (nancorr mat) i j = Some (nancorr_entry mat i j).
Proof.
  intros Hi Hj. unfold matrix_entry, nancorr.
  rewrite !list_lookup_fmap, !lookup_seq_lt by assumption. simpl.
  rewrite !list_lookup_fmap, !lookup_seq_lt by assumption. reflexivity.
Qed.

Lemma corr_columns_length (df : DataFrame) (cols : list (list (option Q))) :
  corr_columns df = Some cols -> length cols = 5%nat.
Proof.
  unfold corr_columns. destruct (Stress_Index df); [| discriminate].
  now intros [= <-].
Qed.












(** * Further properties *)

(** ** The sidebar defaults *)

Lemma unique_elem_of (s : list string) (x : string) : x ∈ unique s <-> x ∈ s.
Proof.
  induction s as [|y s IH]; simpl; [reflexivity |].
  rewrite !elem_of_cons, <- IH, (list_elem_of_In _ x), filter_In.
  rewrite <- list_elem_of_In, negb_true_iff. split.
  - intros [-> | [Hx _]]; auto.
  - intros [-> | Hx]; [now left |].
    destruct (String.eqb_spec y x) as [-> | Hne]; [now left |].
    right. now split.
Qed.

Lemma unique_NoDup (s : list string) : NoDup (unique s).
Proof.
  induction s as [|y s IH]; simpl; constructor.
  - rewrite list_elem_of_In, filter_In, String.eqb_refl. intros [_ [=]].
  - apply NoDup_ListNoDup, List.NoDup_filter, NoDup_ListNoDup, IH.
Qed.

Lemma existsb_eqb_unique (s : list string) (x : string) :
  x ∈ s -> existsb (String.eqb x) (unique s) = true.
Proof. intros Hx. apply isin_spec, unique_elem_of, Hx. Qed.

(** X3: with the selections the two multiselects start from (every country
    and every gender of the table, each offered once), the filter is the
    age range alone. *)
Theorem default_selection_filters_age_only (data : DataFrame) (a b : Z) :
  records (filtered_data data (default_countries data) (default_genders data)
                         (a, b))
  = List.filter (fun r => (a <=? Age r) && (Age r <=? b)) (records data)
  /\ NoDup (default_countries data)
  /\ NoDup (default_genders data)
  /\ (forall c : string,
        c ∈ default_countries data <-> c ∈ column Country data)
  /\ (forall g : string,
        g ∈ default_genders data <-> g ∈ column Gender data).
Proof.
  split; [| split; [apply unique_NoDup | split; [apply unique_NoDup |]]].
  - rewrite records_filtered_data. apply filter_ext_in. intros r Hr.
    unfold keeps, default_countries, default_genders, column. cbn [fst snd].
    rewrite !existsb_eqb_unique; [reflexivity | |];
      apply list_elem_of_In, in_map, Hr.
  - split; intros x; apply unique_elem_of.
Qed.




(** ** How a run ends *)

(** X1: no run reaches the end of the script.  A run ends in [st.stop()]
    when the filter leaves nothing and in the [NameError] of line 133
    otherwise, so the tabs after the third and the footer are never drawn:
    the page holds no expander, no bar, violin or line chart, no heatmap
    and no footer text. *)
Theorem run_never_completes (data : DataFrame) (inp : inputs) :
  let fd := filtered_data data (countries inp) (genders inp) (age_range inp) in
  (run data inp).1
  = (if empty fd then inl StopException else inl (NameError "st_echarts"))
  /\ (forall u : unit, (run data inp).1 <> inr u)
  /\ Forall (fun e => drawn_late e = false) (page (run data inp).2)
  /\ globals (run data inp).2 !! "occupation_avg" = None
  /\ globals (run data inp).2 !! "corr" = None
  /\ globals (run data inp).2 !! "age_trend" = None.
Proof.
  intros fd. destruct (empty fd) eqn:Hempty.
  - rewrite (run_empty data inp Hempty).
    split; [reflexivity |]. split; [discriminate |].
    split; [repeat constructor |]. repeat split; reflexivity.
  - rewrite (run_nonempty data inp Hempty).
    split; [reflexivity |]. split; [discriminate |].
    split; [repeat constructor |]. repeat split; reflexivity.
Qed.

(** X2: the copy of line 45 shields the result of the filter.  When the
    filter leaves some row, the stress index is assigned to a second
    object, which [filtered_data] names from then on; the object the
    filter made keeps its columns, and both hold the same rows. *)
Theorem copy_shields_filter_result (data : DataFrame) (inp : inputs) :
  let fd := filtered_data data (countries inp) (genders inp) (age_range inp) in
  let s := (run data inp).2 in
  empty fd = false ->
  heap s !! 1%nat = Some (ODataFrame fd)
  /\ globals s !! "filtered_data" = Some 2%nat
  /\ (exists df : DataFrame,
        heap s !! 2%nat = Some (ODataFrame df)
        /\ records df = records fd
        /\ Stress_Index df
           = Some (series_map (column Stress_Level fd) stress_level_mapping)
        /\ Activity_Bins df = Activity_Bins fd).
Proof.
  intros fd s Hempty. unfold s. rewrite (run_nonempty data inp Hempty).
  split; [reflexivity |]. split; [reflexivity |].
  exists (derived fd). repeat split; reflexivity.
Qed.

Lemma copy_shields_filter_result_witness :
  let inp := select ["US"] ["Male"; "Female"] 20 60 in
  let s := (run scenario inp).2 in
  empty (filtered_data scenario (countries inp) (genders inp) (age_range inp))
  = false
  /\ heap s !! 1%nat
     = Some (ODataFrame (table [person "US" "Male" 25 2 "Low"]))
  /\ globals s !! "filtered_data" = Some 2%nat.
Proof.
  intros inp s.
  assert (Hempty : empty (filtered_data scenario (countries inp)
                                        (genders inp) (age_range inp))
                   = false) by reflexivity.
  split; [exact Hempty |].
  destruct (copy_shields_filter_result scenario inp Hempty) as (H1 & H2 & _).
  split; [exact H1 | exact H2].
Defined.

(** ** The other KPI numbers *)

(** X5: on a non-empty filtered table the sleep KPI and the BMI KPI that
    the run shows are [round(m, 2)] of the binary64 means of the sleep
    hours and of the BMI of the filtered rows; on fewer than 8 rows these
    means are the reference means (the cells added one after the other,
    over their number). *)
Theorem kpi_sleep_bmi_pairwise_mean (data : DataFrame) (inp : inputs) :
  let fd := filtered_data data (countries inp) (genders inp) (age_range inp) in
  let sleep := float64 (column Sleep_Hours fd) in
  let bmi := float64 (column BMI fd) in
  empty fd = false ->
  page (run data inp).2 !! 3%nat
  = Some (st_metric "平均睡眠时长 (hours/day)" (round2 (mean sleep)))
  /\ page (run data inp).2 !! 5%nat
     = Some (st_metric "平均 BMI" (round2 (mean bmi)))
  /\ ((length (records fd) < 8)%nat ->
      mean sleep = naive_mean_float sleep /\ mean bmi = naive_mean_float bmi).
Proof.
  intros fd sleep bmi Hempty. rewrite (run_nonempty data inp Hempty).
  cbn [snd raised page lookup list_lookup]. fold fd.
  split; [reflexivity |]. split; [reflexivity |]. intros Hrows.
  split; apply mean_small; unfold sleep, bmi, float64, column;
    now rewrite !length_map.
Qed.

Lemma kpi_sleep_bmi_pairwise_mean_witness :
  let inp := select ["US"; "DE"] ["Male"; "Female"] 20 80 in
  empty (filtered_data scenario (countries inp) (genders inp) (age_range inp))
  = false
  /\ page (run scenario inp).2 !! 3%nat
     = Some (st_metric "平均睡眠时长 (hours/day)" 7%float)
  /\ page (run scenario inp).2 !! 5%nat
     = Some (st_metric "平均 BMI" 22%float).
Proof.
  intros inp.
  assert (Hempty : empty (filtered_data scenario (countries inp)
                                        (genders inp) (age_range inp))
                   = false) by reflexivity.
  split; [exact Hempty |].
  destruct (kpi_sleep_bmi_pairwise_mean scenario inp Hempty) as (H3 & H5 & _).
  split; [exact H3 | exact H5].
Defined.

(** ** Rounding *)

(** X6: [round(x, 2)] is numpy's, three binary64 steps, and not the
    nearest number of two decimals.  NaN stays NaN; a tie goes to the
    even hundredth (0.125 gives 0.12, 0.375 gives 0.38); the float64
    nearest to 2.675 gives 2.68, because its product by 100 rounds to
    267.5; the mean 203/200 gives 1.01, because its product by 100 lies
    below 101.5. *)
Theorem round2_binary64 :
  round2 nan = nan
  /\ round2 (to_float 0.125) = to_float 0.12
  /\ round2 (to_float 0.375) = to_float 0.38
  /\ (to_float 2.675 * 100)%float = to_float 267.5
  /\ round2 (to_float 2.675) = to_float 2.68
  /\ (float_of_int 203 / float_of_int 200 * 100 <? to_float 101.5)%float
     = true
  /\ round2 (float_of_int 203 / float_of_int 200) = to_float 1.01.
Proof. repeat split; vm_compute; reflexivity. Qed.

(** ** The order of the rows *)

Lemma total_Permutation (zs zs' : list Z) :
  Permutation zs zs' -> total zs = total zs'.
Proof.
  unfold total. induction 1; cbn [fold_right]; lia.
Qed.

Lemma stress_indices_Permutation (rows rows' : list row) :
  Permutation rows rows' ->
  Permutation (stress_indices rows) (stress_indices rows').
Proof.
  unfold stress_indices.
  induction 1 as [| r rows rows' _ IH | r r' rows | rows rows' rows'' _ IH _ IH'].
  - constructor.
  - cbn [List.filter]. destruct (recognized r); cbn [List.map];
      [now constructor | exact IH].
  - cbn [List.filter]. destruct (recognized r), (recognized r');
      cbn [List.map]; try reflexivity. constructor.
  - now transitivity (List.map
                        (fun r => default 0 (stress_level_mapping !! Stress_Level r))
                        (List.filter recognized rows')).
Qed.

Lemma stress_indices_recognized (rows : list row) :
  stress_indices (List.filter recognized rows) = stress_indices rows.
Proof.
  unfold stress_indices. f_equal.
  induction rows as [|r rows IH]; [reflexivity |].
  cbn [List.filter]. destruct (recognized r) eqn:Hr; cbn [List.filter];
    rewrite ?Hr, IH; reflexivity.
Qed.

(** X7: the stress KPI does not depend on the order of the rows, and the
    rows whose stress level is not Low, Medium or High do not count:
    the table with its rows in another order, and the table without
    these rows, show the same stress KPI. *)
Theorem kpi_stress_order_independent (rows rows' : list row) :
  Permutation rows rows' ->
  Z.of_nat (length rows) < 2 ^ 51 ->
  let kpi t :=
    kpi_stress (series_map (List.map Stress_Level t) stress_level_mapping) in
  kpi rows' = kpi rows /\ kpi (List.filter recognized rows) = kpi rows.
Proof.
  intros Hperm Hlen kpi. unfold kpi.
  assert (Hlen' : Z.of_nat (length rows') < 2 ^ 51)
    by now rewrite <- (Permutation_length Hperm).
  assert (Hsome : Z.of_nat (length (List.filter recognized rows)) < 2 ^ 51).
  { pose proof (filter_length_le recognized rows). lia. }
  rewrite !kpi_stress_exact by assumption.
  pose proof (stress_indices_Permutation rows rows' Hperm) as Hindices.
  split; [| now rewrite stress_indices_recognized].
  now rewrite (total_Permutation _ _ Hindices), (Permutation_length Hindices).
Qed.

Lemma kpi_stress_order_independent_witness :
  let rows := [drinker 30 2 "Low"; drinker 31 2 "Extreme";
               drinker 32 2 "High"] in
  let rows' := [drinker 32 2 "High"; drinker 30 2 "Low";
                drinker 31 2 "Extreme"] in
  Permutation rows rows'
  /\ kpi_stress (series_map (List.map Stress_Level rows') stress_level_mapping)
     = kpi_stress (series_map (List.map Stress_Level rows) stress_level_mapping).
Proof.
  intros rows rows'.
  assert (Hperm : Permutation rows rows').
  { unfold rows, rows'. etransitivity; [| apply perm_swap].
    apply perm_skip, perm_swap. }
  assert (Hlen : Z.of_nat (length rows) < 2 ^ 51) by reflexivity.
  split; [exact Hperm |].
  exact (proj1 (kpi_stress_order_independent rows rows' Hperm Hlen)).
Defined.

(** X18: the coffee KPI depends on the order of the rows.  Eight rows with
    the intakes 3.1, 3.2, 5.9, 3.7, 3.4, 0.9, 3.3 and 5.5 show the KPI
    3.63; the same rows with the second and the third exchanged show
    3.62. *)
Theorem kpi_coffee_depends_on_order :
  let inp := select ["US"] ["Male"] 20 60 in
  Permutation (records eight_rows) (records eight_rows_exchanged)
  /\ page (run eight_rows inp).2 !! 2%nat
     = Some (st_metric "平均咖啡摄入量 (cups/day)" (to_float 3.63))
  /\ page (run eight_rows_exchanged inp).2 !! 2%nat
     = Some (st_metric "平均咖啡摄入量 (cups/day)" (to_float 3.62))
  /\ to_float 3.63 <> to_float 3.62.
Proof.
  split; [apply perm_skip, perm_swap |].
  split; [vm_compute; reflexivity |]. split; [vm_compute; reflexivity |].
  apply float_neq. vm_compute. discriminate.
Qed.

(** ** The orders of the group keys *)










(** ** The other group-by means *)

Section group_keys_facts.
Context {K : Type} `{Countable K}.
Variable order : K -> K -> Prop.
Context `{forall a b, Decision (order a b)}.





End group_keys_facts.



(** ** The map of tab 3 *)







(** ** Frames stay well-formed *)

Lemma take_mask_length {A B : Type} (l : list A) (k : list B)
    (mask : list bool) :
  length l = length k ->
  length (take_mask l mask) = length (take_mask k mask).
Proof.
  revert k mask. induction l as [|x l IH]; intros [|y k] [|b mask] Hlen;
    simpl in *; try reflexivity; try discriminate.
  destruct b; simpl; [f_equal |]; apply IH; lia.
Qed.

Lemma aligned_getitem_mask (df : DataFrame) (mask : list bool) :
  aligned df -> aligned (getitem_mask df mask).
Proof.
  intros [Hsi Hab]. split; intros c; cbn [getitem_mask Stress_Index Activity_Bins records].
  - destruct (Stress_Index df) as [si |]; [| discriminate].
    intros [= <-]. apply take_mask_length, Hsi. reflexivity.
  - destruct (Activity_Bins df) as [ab |]; [| discriminate].
    intros [= <-]. apply take_mask_length, Hab. reflexivity.
Qed.

Lemma aligned_setitem_Stress_Index (df : DataFrame) :
  aligned df ->
  aligned (setitem_Stress_Index df
             (series_map (column Stress_Level df) stress_level_mapping)).
Proof.
  intros [Hsi Hab]. split; intros c; cbn.
  - intros [= <-]. unfold series_map, column. now rewrite !length_map.
  - apply Hab.
Qed.

Lemma aligned_setitem_Activity_Bins (df : DataFrame) :
  aligned df ->
  aligned (setitem_Activity_Bins df
             (List.map Activity_Bin (column Physical_Activity_Hours df))).
Proof.
  intros [Hsi Hab]. split; intros c; cbn.
  - apply Hsi.
  - intros [= <-]. unfold column. now rewrite !length_map.
Qed.

Lemma aligned_bind {A B : Type} (m : M A) (f : A -> M B) (Q : A -> Prop)
    (Q' : B -> Prop) :
  keeps_aligned m Q ->
  (forall x : A, Q x -> keeps_aligned (f x) Q') ->
  keeps_aligned (bind m f) Q'.
Proof.
  intros Hm Hf s Hs. destruct (Hm s Hs) as [Hkept Hres].
  unfold bind. destruct (m s) as [[e | x] s'] eqn:Hms; simpl in *.
  - split; [exact Hkept | discriminate].
  - apply (Hf x (Hres x eq_refl) s' Hkept).
Qed.

Lemma aligned_ret {A : Type} (x : A) (Q : A -> Prop) :
  Q x -> keeps_aligned (ret x) Q.
Proof. intros HQ s Hs. split; [exact Hs | now intros y [= <-]]. Qed.

Lemma aligned_raise {A : Type} (e : exception) (Q : A -> Prop) :
  keeps_aligned (raise e) Q.
Proof. intros s Hs. split; [exact Hs | discriminate]. Qed.

Lemma aligned_emit (e : element) : keeps_aligned (emit e) (fun _ => True).
Proof. intros s Hs. split; [exact Hs | trivial]. Qed.

Lemma aligned_assign (name : string) (a : nat) :
  keeps_aligned (assign name a) (fun _ => True).
Proof. intros s Hs. split; [exact Hs | trivial]. Qed.

Lemma aligned_alloc (o : object) :
  (forall df, o = ODataFrame df -> aligned df) ->
  keeps_aligned (alloc o) (fun _ => True).
Proof.
  intros Ho s Hs. split; [| trivial]. intros a df. cbn [alloc snd heap].
  intros Hlookup. apply lookup_app_Some in Hlookup as [Hold | [_ Hnew]].
  - apply (Hs a df Hold).
  - apply list_lookup_singleton_Some in Hnew as [_ Hnew]. now apply Ho.
Qed.

Lemma aligned_mutate (a : nat) (o : object) :
  (forall df, o = ODataFrame df -> aligned df) ->
  keeps_aligned (mutate a o) (fun _ => True).
Proof.
  intros Ho s Hs. split; [| trivial]. intros a' df. cbn [mutate snd heap].
  intros Hlookup. apply list_lookup_insert_Some in Hlookup
    as [(-> & Heq & _) | [_ Hold]].
  - now apply Ho.
  - apply (Hs a' df Hold).
Qed.

Lemma aligned_frame (name : string) :
  keeps_aligned (frame name) (fun f => aligned f.2).
Proof.
  intros s Hs. unfold frame, bind, name_.
  destruct (globals s !! name) as [a |]; [| split; [exact Hs | discriminate]].
  destruct (heap s !! a) as [[df | | | |] |] eqn:Ha;
    (split; [exact Hs | try discriminate]).
  intros f [= <-]. apply (Hs a df Ha).
Qed.

Lemma aligned_frame_any (name : string) :
  keeps_aligned (frame name) (fun _ => True).
Proof.
  intros s Hs. split; [apply (aligned_frame name s Hs) | trivial].
Qed.

Lemma aligned_object_ (name : string) :
  keeps_aligned (object_ name) (fun _ => True).
Proof.
  intros s Hs. unfold object_, bind, name_.
  destruct (globals s !! name) as [a |]; [| split; [exact Hs | trivial]].
  destruct (heap s !! a); (split; [exact Hs | trivial]).
Qed.

Lemma aligned_alloc_assign (name : string) (o : object) :
  (forall df, o = ODataFrame df -> aligned df) ->
  keeps_aligned (let* a := alloc o in assign name a) (fun _ => True).
Proof.
  intros Ho. eapply aligned_bind; [now apply aligned_alloc |].
  intros a _. apply aligned_assign.
Qed.

Lemma aligned_run_operation (op : operation) :
  keeps_aligned (run_operation op) (fun _ => True).
Proof.
  destruct op; unfold run_operation;
    (eapply aligned_bind; [apply aligned_frame |]); intros f Hf.
  - apply aligned_alloc_assign. intros df [= <-].
    now apply aligned_getitem_mask.
  - apply aligned_alloc_assign. now intros df [= <-].
  - apply aligned_mutate. intros df [= <-].
    now apply aligned_setitem_Stress_Index.
  - apply aligned_mutate. intros df [= <-].
    now apply aligned_setitem_Activity_Bins.
  - eapply aligned_bind; [apply aligned_emit |]. intros _ _.
    eapply aligned_bind; [apply aligned_emit |]. intros _ _.
    destruct (Stress_Index f.2); [| apply aligned_raise].
    eapply aligned_bind; [apply aligned_emit |]. intros _ _. apply aligned_emit.
  - apply aligned_alloc_assign. discriminate.
  - apply aligned_alloc_assign. discriminate.
  - destruct (corr f.2); [| apply aligned_raise].
    apply aligned_alloc_assign. discriminate.
  - apply aligned_alloc_assign. discriminate.
Qed.

Lemma aligned_run_operations (ops : list operation) :
  keeps_aligned (run_operations ops) (fun _ => True).
Proof.
  induction ops as [|op ops IH]; simpl.
  - now apply aligned_ret.
  - eapply aligned_bind; [apply aligned_run_operation |]. intros _ _. exact IH.
Qed.

Ltac aligned :=
  lazymatch goal with
  | |- keeps_aligned (bind _ _) _ =>
      eapply (aligned_bind _ _ (fun _ => True)); [aligned | intros ? _; aligned]
  | |- keeps_aligned (if ?b then _ else _) _ => destruct b; aligned
  | |- keeps_aligned (match ?o with _ => _ end) _ => destruct o; aligned
  | |- keeps_aligned (emit _) _ => apply aligned_emit
  | |- keeps_aligned (raise _) _ => apply aligned_raise
  | |- keeps_aligned (ret _) _ => apply aligned_ret; exact I
  | |- keeps_aligned (run_operation _) _ => apply aligned_run_operation
  | |- keeps_aligned (frame _) _ => apply aligned_frame_any
  | |- keeps_aligned (object_ _) _ => apply aligned_object_
  end.

Lemma aligned_script (inp : inputs) :
  keeps_aligned (script inp) (fun _ => True).
Proof.
  unfold script, tab1, tab2, tab3, tab4, tab5, footer. aligned.
Qed.

Lemma heap_aligned_loaded (data : DataFrame) :
  aligned data -> heap_aligned (loaded data).
Proof.
  intros Hdata a df. cbn [loaded heap]. intros Hlookup.
  apply list_lookup_singleton_Some in Hlookup as [_ [= <-]]. exact Hdata.
Qed.

(** X11: frames stay well-formed.  When the derived columns of the loaded
    table, if it has any, have one cell per row, so do those of every
    frame the script ever holds: after any sequence of the operations and
    after any run, each derived column of each frame of the heap has as
    many cells as the frame has rows. *)
Theorem frames_stay_aligned (data : DataFrame) (ops : list operation)
    (inp : inputs) :
  aligned data ->
  heap_aligned (run_operations ops (loaded data)).2
  /\ heap_aligned (run data inp).2.
Proof.
  intros Hdata. pose proof (heap_aligned_loaded data Hdata) as Hs. split.
  - apply (aligned_run_operations ops (loaded data) Hs).
  - apply (aligned_script inp (loaded data) Hs).
Qed.

Lemma frames_stay_aligned_witness :
  aligned scenario
  /\ heap_aligned
       (run_operations
          [Filter ["US"] ["Male"] (20, 60); Copy; Derive_Stress_Index;
           Derive_Activity_Bins]
          (loaded scenario)).2.
Proof.
  assert (Hdata : aligned scenario) by (split; discriminate).
  split; [exact Hdata |].
  exact (proj1 (frames_stay_aligned scenario _ (select [] [] 0 0) Hdata)).
Defined.

(** ** The gaps of the correlation matrix *)

Lemma to_float_comp (q q' : Q) : (q == q')%Q -> to_float q = to_float q'.
Proof. intros Heq. unfold to_float. now rewrite (Qred_complete q q' Heq). Qed.

Lemma first_present_None (s : list (option Q)) :
  first_present s = None -> Forall (fun cell => cell = None) s.
Proof.
  induction s as [|[v |] s IH]; simpl; [constructor | discriminate |].
  intros Hs. constructor; [reflexivity | apply IH, Hs].
Qed.

(** A column without two different values: its cells that are numbers are
    one float64. *)
Lemma constant_cells (s : list (option Q)) :
  varies s = false ->
  exists c : float,
    Forall (fun v => is_finite v = true -> v = c) (to_numpy s).
Proof.
  unfold varies, to_numpy. destruct (first_present s) as [v0 |] eqn:Hfirst.
  - intros Hconst. exists (to_float v0).
    apply Forall_forall. intros v Hv Hfin.
    rewrite list_elem_of_In, in_map_iff in Hv.
    destruct Hv as [[w |] [<- Hin]]; [| discriminate]. cbn [cell].
    assert (Hw : negb (Qeq_bool v0 w) = false).
    { destruct (negb (Qeq_bool v0 w)) eqn:Hneg; [| reflexivity].
      rewrite <- Hconst. symmetry. apply existsb_exists.
      exists (Some w). split; [exact Hin | exact Hneg]. }
    apply negb_false_iff, Qeq_bool_iff in Hw. symmetry.
    now apply to_float_comp.
  - intros _. exists zero.
    apply first_present_None in Hfirst. rewrite Forall_forall in Hfirst.
    apply Forall_forall. intros v Hv Hfin.
    rewrite list_elem_of_In, in_map_iff in Hv.
    destruct Hv as [c [<- Hin]].
    rewrite (Hfirst c) in Hfin by now apply list_elem_of_In.
    discriminate.
Qed.

Lemma zip_cells_l (c : float) (x y : list float) :
  Forall (fun v => is_finite v = true -> v = c) x ->
  Forall (fun p : float * float => is_finite p.1 = true -> p.1 = c) (zip x y).
Proof.
  revert y. induction x as [|a x IH]; intros [|b y] Hx; simpl;
    try constructor.
  - apply Forall_cons in Hx as [Ha _]. exact Ha.
  - apply IH. now apply Forall_cons in Hx as [_ Hx].
Qed.

Lemma zip_cells_r (c : float) (x y : list float) :
  Forall (fun v => is_finite v = true -> v = c) y ->
  Forall (fun p : float * float => is_finite p.2 = true -> p.2 = c) (zip x y).
Proof.
  revert y. induction x as [|a x IH]; intros [|b y] Hy; simpl;
    try constructor.
  - apply Forall_cons in Hy as [Hb _]. exact Hb.
  - apply IH. now apply Forall_cons in Hy as [_ Hy].
Qed.

Lemma nancorr_pair_constant (c : float) (x y : list float) :
  Forall (fun v => is_finite v = true -> v = c) x ->
  nancorr_pair x y = nan /\ nancorr_pair y x = nan.
Proof.
  intros Hx. unfold nancorr_pair, welford_pass. split.
  - apply (coefficient_constant_x c), constant_x_fold;
      [now apply zip_cells_l | right; now split].
  - apply (coefficient_constant_y c), constant_y_fold;
      [now apply zip_cells_r | right; now split].
Qed.

(** X13: a column without two different values has no correlation.  When
    all present cells of one of the five columns are equal (a selection
    of one row, or of rows with one stress level), the whole row and the
    whole column of that variable in the matrix are NaN, the diagonal
    entry included. *)
Theorem constant_column_no_correlation (df : DataFrame)
    (cols : list (list (option Q))) (i : nat) (s : list (option Q)) :
  corr_columns df = Some cols ->
  cols !! i = Some s ->
  varies s = false ->
  exists m : list (list float),
    corr df = Some m
    /\ forall j : nat, (j < 5)%nat ->
         matrix_entry m i j = Some nan /\ matrix_entry m j i = Some nan.
Proof.
  intros Hcols Hs Hconst. unfold corr. rewrite Hcols. cbn [option_map].
  exists (nancorr (List.map to_numpy cols)). split; [reflexivity |].
  assert (Hlen : length (List.map to_numpy cols) = 5%nat)
    by (rewrite length_map; now apply (corr_columns_length df)).
  assert (Hi : (i < 5)%nat).
  { apply lookup_lt_Some in Hs. now rewrite length_map in Hlen; rewrite <- Hlen. }
  destruct (constant_cells s Hconst) as [c Hc].
  intros j Hj. rewrite !nancorr_lookup by (rewrite Hlen; assumption).
  unfold nancorr_entry. rewrite list_lookup_fmap, Hs.
  cbn [fmap option_fmap option_map default]. unfold Datatypes.id.
  pose proof (fun y => nancorr_pair_constant c (to_numpy s) y Hc) as Hpair.
  destruct (j <=? i)%nat, (i <=? j)%nat; split; f_equal; apply Hpair.
Qed.

Lemma constant_column_no_correlation_witness :
  let df := derived (table [person "US" "Male" 25 2 "Low"]) in
  corr_columns df
  = Some [[Some 2%Q]; [Some 7%Q]; [Some 1%Q]; [Some 70%Q]; [Some 22%Q]]
  /\ varies [Some 2%Q] = false
  /\ exists m : list (list float),
       corr df = Some m /\ matrix_entry m 0 0 = Some nan.
Proof.
  intros df.
  assert (Hcols : corr_columns df
                  = Some [[Some 2%Q]; [Some 7%Q]; [Some 1%Q]; [Some 70%Q];
                          [Some 22%Q]]) by reflexivity.
  assert (Hconst : varies [Some 2%Q] = false) by reflexivity.
  split; [exact Hcols |]. split; [exact Hconst |].
  destruct (constant_column_no_correlation df _ 0 [Some 2%Q] Hcols
              eq_refl Hconst) as (m & Hm & Hnan).
  exists m. split; [exact Hm |]. apply (Hnan 0%nat). lia.
Defined.

(** ** [pd.cut] on any breakpoints *)

Lemma searchsorted_left_between (bins : list Q) (x lo hi : Q) (i : nat) :
  StronglySorted Qlt bins ->
  bins !! i = Some lo -> bins !! S i = Some hi ->
  (lo < x)%Q -> (x <= hi)%Q ->
  searchsorted_left bins x = S i.
Proof.
  intros Hsorted. revert i. induction Hsorted as [|b bs Hsorted IH Hall];
    intros i Hlo Hhi Hlt Hle; [discriminate |].
  cbn [searchsorted_left]. destruct i as [|i].
  - injection Hlo as ->. cbn in Hhi.
    destruct (Qlt_le_dec lo x) as [_ | Hc]; [| lra]. f_equal.
    destruct bs as [|h bs]; [discriminate |]. injection Hhi as ->.
    cbn [searchsorted_left]. destruct (Qlt_le_dec hi x); [lra | reflexivity].
  - cbn in Hlo, Hhi. rewrite Forall_forall in Hall.
    assert (Hb : (b < lo)%Q) by (apply Hall, list_elem_of_lookup; eauto).
    destruct (Qlt_le_dec b x) as [_ | Hc]; [| lra].
    f_equal. now apply IH.
Qed.

Lemma searchsorted_left_all (bins : list Q) (x : Q) :
  Forall (fun b => (b < x)%Q) bins -> searchsorted_left bins x = length bins.
Proof.
  induction 1 as [|b bs Hb _ IH]; [reflexivity |].
  cbn [searchsorted_left length].
  destruct (Qlt_le_dec b x); [now rewrite IH | lra].
Qed.

Lemma sorted_below_last (bins : list Q) (b : Q) :
  StronglySorted Qlt bins -> last bins = Some b ->
  Forall (fun y => (y <= b)%Q) bins.
Proof.
  induction 1 as [|y bs Hsorted IH Hall]; intros Hlast; [constructor |].
  destruct bs as [|z bs].
  - injection Hlast as ->. constructor; [lra | constructor].
  - change (last (y :: z :: bs)) with (last (z :: bs)) in Hlast.
    specialize (IH Hlast). constructor; [| exact IH].
    apply Forall_cons in Hall as [Hyz _]. apply Forall_cons in IH as [Hzb _].
    lra.
Qed.

(** X17: [pd.cut] with its defaults, on any strictly ascending
    breakpoints with one label per interval.  A value in an interval
    open on the left and closed on the right gets the label of that
    interval; a value that is not above the first breakpoint, or that is
    above the last one, gets none. *)
Theorem cut_right_closed (bins : list Q) (labels : list string) (x : Q) :
  StronglySorted Qlt bins ->
  S (length labels) = length bins ->
  (forall (i : nat) (lo hi : Q),
     bins !! i = Some lo -> bins !! S i = Some hi ->
     (lo < x)%Q -> (x <= hi)%Q ->
     cut x bins labels = labels !! i /\ is_Some (labels !! i))
  /\ (forall b : Q, head bins = Some b -> (x <= b)%Q ->
      cut x bins labels = None)
  /\ (forall b : Q, last bins = Some b -> (b < x)%Q ->
      cut x bins labels = None).
Proof.
  intros Hsorted Hlen. split; [| split].
  - intros i lo hi Hlo Hhi Hlt Hle. unfold cut.
    rewrite (searchsorted_left_between bins x lo hi i) by assumption.
    apply lookup_lt_Some in Hhi.
    split.
    + destruct (Nat.eqb_spec (S i) (length bins)) as [Heq | _]; [lia |].
      cbn [Nat.eqb orb]. now rewrite Nat.sub_1_r.
    + apply lookup_lt_is_Some. lia.
  - intros b Hhead Hle. unfold cut.
    destruct bins as [|b' bs]; [discriminate |]. injection Hhead as ->.
    cbn [searchsorted_left]. destruct (Qlt_le_dec b x); [lra |].
    now rewrite orb_true_r.
  - intros b Hlast Hlt. unfold cut.
    rewrite searchsorted_left_all, Nat.eqb_refl; [reflexivity |].
    eapply Forall_impl; [apply (sorted_below_last bins b Hsorted Hlast) |].
    intros y Hy. simpl in Hy. lra.
Qed.

Lemma cut_right_closed_witness :
  StronglySorted Qlt activity_bins
  /\ S (length activity_labels) = length activity_bins
  /\ cut 3 activity_bins activity_labels = Some "2-4h"
  /\ cut 0 activity_bins activity_labels = None.
Proof.
  assert (Hsorted : StronglySorted Qlt activity_bins).
  { unfold activity_bins. repeat constructor; unfold Qlt; simpl; lia. }
  assert (Hlen : S (length activity_labels) = length activity_bins)
    by reflexivity.
  split; [exact Hsorted |]. split; [exact Hlen |].
  destruct (cut_right_closed activity_bins activity_labels 3 Hsorted Hlen)
    as [Hin _].
  destruct (cut_right_closed activity_bins activity_labels 0 Hsorted Hlen)
    as (_ & Hlow & _).
  split.
  - apply (Hin 1%nat 2%Q 4%Q); [reflexivity | reflexivity | lra | lra].
  - apply (Hlow 0%Q); [reflexivity | lra].
Defined.

(** ** The last two tabs, taken on their own *)

Lemma bind_inl {A B : Type} (m : M A) (f : A -> M B) (s s' : state)
    (e : exception) :
  m s = (inl e, s') -> bind m f s = (inl e, s').
Proof. intros Hm. unfold bind. now rewrite Hm. Qed.

Lemma emit_then {B : Type} (e : element) (k : M B) (s : state) :
  bind (emit e) (fun _ => k) s
  = k {| heap := heap s; globals := globals s; page := page s ++ [e] |}.
Proof. reflexivity. Qed.

Lemma alloc_assign_at (name : string) (o : object) (s : state) :
  (let* a := alloc o in assign name a) s
  = (inr tt,
     {| heap := heap s ++ [o];
        globals := <[name := length (heap s)]> (globals s);
        page := page s |}).
Proof. reflexivity. Qed.

Lemma object_new (name : string) (o : object) (l : list object)
    (g : gmap string nat) (p : list element) :
  object_ name {| heap := l ++ [o]; globals := <[name := length l]> g;
                  page := p |}
  = (inr o, {| heap := l ++ [o]; globals := <[name := length l]> g;
               page := p |}).
Proof.
  unfold object_, bind, name_. cbn [globals].
  rewrite lookup_insert_eq. cbn [heap].
  now rewrite lookup_app_r, Nat.sub_diag by lia.
Qed.

(** X15: tab 5 on its own, started where [filtered_data] names a frame.
    If the frame has a stress index, the tab ends normally: it adds the
    correlation matrix and the age trend of the frame to the heap as two
    new objects, names them [corr] and [age_trend], and draws the
    heatmap of the one and the line chart of the other.  If the frame has
    no stress index, the column selection of line 215 raises a
    [KeyError] after the first subheader, and nothing else is changed. *)
Theorem tab5_on_its_own (s : state) (a : nat) (df : DataFrame) :
  globals s !! "filtered_data" = Some a ->
  heap s !! a = Some (ODataFrame df) ->
  (forall m : list (list float),
     corr df = Some m ->
     tab5 s
     = (inr tt,
        {| heap := heap s ++ [OCorr m; OAgeTrend (age_trend df)];
           globals := <["age_trend" := S (length (heap s))]>
                        (<["corr" := length (heap s)]> (globals s));
           page := page s
                   ++ [ st_subheader "健康指标相关性热力图";
                        st_pyplot m;
                        st_subheader "不同年龄段咖啡摄入与睡眠趋势";
                        st_plotly_chart (px_line (age_trend df)) ] |}))
  /\ (Stress_Index df = None ->
      tab5 s
      = (inl (KeyError "Stress_Index"),
         {| heap := heap s; globals := globals s;
            page := page s ++ [st_subheader "健康指标相关性热力图"] |})).
Proof.
  intros Hname Hobj. split.
  - intros m Hcorr. unfold tab5. rewrite emit_then.
    unfold run_operation at 1.
    erewrite bind_inr
      by (erewrite bind_inr by (apply frame_at; cbn; eassumption);
          cbn [snd]; rewrite Hcorr; apply alloc_assign_at).
    cbn [heap globals page].
    erewrite bind_inr by apply object_new. cbv beta iota.
    rewrite emit_then, emit_then. cbn [heap globals page].
    unfold run_operation at 1.
    erewrite bind_inr.
    2:{ erewrite bind_inr.
        2:{ apply frame_at; cbn [globals heap].
            - rewrite lookup_insert_ne by discriminate. eassumption.
            - apply lookup_app_l_Some. eassumption. }
        cbn [snd]. apply alloc_assign_at. }
    cbn [heap globals page].
    erewrite bind_inr by apply object_new. cbv beta iota.
    unfold emit. cbn [heap globals page].
    rewrite <- !app_assoc, length_app, Nat.add_1_r. reflexivity.
  - intros Hmissing. unfold tab5. rewrite emit_then.
    unfold run_operation at 1.
    assert (Hcorr : corr df = None)
      by (unfold corr, corr_columns; now rewrite Hmissing).
    erewrite bind_inl; [reflexivity |].
    erewrite bind_inr by (apply frame_at; cbn; eassumption).
    cbn [snd]. rewrite Hcorr. reflexivity.
Qed.

Lemma tab5_on_its_own_witness :
  let s := {| heap := [ODataFrame scenario];
              globals := {["filtered_data" := 0%nat]};
              page := [] |} in
  globals s !! "filtered_data" = Some 0%nat
  /\ heap s !! 0%nat = Some (ODataFrame scenario)
  /\ Stress_Index scenario = None
  /\ (tab5 s).1 = inl (KeyError "Stress_Index").
Proof.
  intros s.
  assert (Hname : globals s !! "filtered_data" = Some 0%nat) by reflexivity.
  assert (Hobj : heap s !! 0%nat = Some (ODataFrame scenario)) by reflexivity.
  split; [exact Hname |]. split; [exact Hobj |]. split; [reflexivity |].
  rewrite (proj2 (tab5_on_its_own s 0 scenario Hname Hobj) eq_refl).
  reflexivity.
Defined.

Lemma run_Derive_Activity_Bins (s : state) (a : nat) (df : DataFrame) :
  globals s !! "filtered_data" = Some a ->
  heap s !! a = Some (ODataFrame df) ->
  run_operation Derive_Activity_Bins s
  = (inr tt,
     {| heap := <[a := ODataFrame
                        (setitem_Activity_Bins df
                           (List.map Activity_Bin
                              (column Physical_Activity_Hours df)))]> (heap s);
        globals := globals s;
        page := page s |}).
Proof.
  intros Hname Hobj. unfold run_operation.
  erewrite bind_inr by (apply frame_at; eassumption). reflexivity.
Qed.

Lemma tab4_run (inp : inputs) (s : state) (a : nat) (df : DataFrame) :
  globals s !! "filtered_data" = Some a ->
  heap s !! a = Some (ODataFrame df) ->
  let binned :=
    setitem_Activity_Bins df
      (List.map Activity_Bin (column Physical_Activity_Hours df)) in
  let bins := String.eqb (habit inp) "Physical_Activity_Hours" in
  tab4 inp s
  = (inr tt,
     {| heap := if bins
                then <[a := ODataFrame binned]>
                       (heap s ++ [OOccupationAvg (occupation_avg df)])%list
                else (heap s ++ [OOccupationAvg (occupation_avg df)])%list;
        globals := <["occupation_avg" := length (heap s)]> (globals s);
        page := page s
                ++ [ st_subheader "职业与咖啡摄入对比";
                     st_plotly_chart (px_bar (occupation_avg df));
                     st_expander "展开查看：职业与咖啡摄入分布（小提琴图）";
                     st_plotly_chart (px_violin df "Occupation");
                     st_subheader "咖啡与生活习惯分析";
                     st_selectbox "选择生活习惯指标"
                       ["Smoking"; "Alcohol_Consumption";
                        "Physical_Activity_Hours"];
                     st_plotly_chart
                       (if bins then px_violin binned "Activity_Bins"
                        else px_violin df (habit inp)) ] |}).
Proof.
  intros Hname Hobj binned bins. unfold bins, tab4.
  assert (Ha : (a < length (heap s))%nat)
    by (eapply lookup_lt_Some; eassumption).
  rewrite emit_then. unfold run_operation at 1.
  erewrite bind_inr
    by (erewrite bind_inr by (apply frame_at; cbn; eassumption);
        cbn [snd]; apply alloc_assign_at).
  cbn [heap globals page].
  erewrite bind_inr by apply object_new. cbv beta iota.
  rewrite emit_then. cbn [heap globals page].
  erewrite bind_inr.
  2:{ apply frame_at; cbn [globals heap].
      - rewrite lookup_insert_ne by discriminate. eassumption.
      - apply lookup_app_l_Some. eassumption. }
  cbn [snd]. rewrite !emit_then. cbn [heap globals page].
  destruct (String.eqb (habit inp) "Physical_Activity_Hours").
  - erewrite bind_inr.
    2:{ erewrite bind_inr; [reflexivity |].
        apply run_Derive_Activity_Bins; cbn [globals heap].
        - rewrite lookup_insert_ne by discriminate. eassumption.
        - apply lookup_app_l_Some. eassumption. }
    cbn [heap globals page].
    erewrite bind_inr.
    2:{ apply frame_at; cbn [globals heap].
        - rewrite lookup_insert_ne by discriminate. eassumption.
        - apply list_lookup_insert_eq. rewrite length_app. lia. }
    cbn [snd fst]. unfold emit. cbn [heap globals page]. fold binned.
    now rewrite <- !app_assoc.
  - erewrite bind_inr by reflexivity.
    erewrite bind_inr.
    2:{ apply frame_at; cbn [globals heap].
        - rewrite lookup_insert_ne by discriminate. eassumption.
        - apply lookup_app_l_Some. eassumption. }
    cbn [snd fst]. unfold emit. cbn [heap globals page].
    now rewrite <- !app_assoc.
Qed.

(** X14: tab 4 on its own, started where [filtered_data] names a frame.
    The tab ends normally.  It adds the occupation means as a new object
    and draws the bar chart, the expander with the occupation violin, and
    the habit violin.  When the habit picked is
    [Physical_Activity_Hours], the frame that [filtered_data] names gets
    the activity bins as a column, in place, and the last violin is drawn
    over that column; for any other habit the frame stays as it was and
    the violin is drawn over the habit's own column. *)
Theorem tab4_on_its_own (inp : inputs) (s : state) (a : nat)
    (df : DataFrame) :
  globals s !! "filtered_data" = Some a ->
  heap s !! a = Some (ODataFrame df) ->
  let binned :=
    setitem_Activity_Bins df
      (List.map Activity_Bin (column Physical_Activity_Hours df)) in
  let shown :=
    if String.eqb (habit inp) "Physical_Activity_Hours"
    then (binned, "Activity_Bins") else (df, habit inp) in
  let s' := (tab4 inp s).2 in
  (tab4 inp s).1 = inr tt
  /\ heap s' !! a = Some (ODataFrame shown.1)
  /\ heap s' !! length (heap s) = Some (OOccupationAvg (occupation_avg df))
  /\ length (heap s') = S (length (heap s))
  /\ globals s' = <["occupation_avg" := length (heap s)]> (globals s)
  /\ page s'
     = (page s
        ++ [ st_subheader "职业与咖啡摄入对比";
             st_plotly_chart (px_bar (occupation_avg df));
             st_expander "展开查看：职业与咖啡摄入分布（小提琴图）";
             st_plotly_chart (px_violin df "Occupation");
             st_subheader "咖啡与生活习惯分析";
             st_selectbox "选择生活习惯指标"
               ["Smoking"; "Alcohol_Consumption"; "Physical_Activity_Hours"];
             st_plotly_chart (px_violin shown.1 shown.2) ])%list.
Proof.
  intros Hname Hobj binned shown s'. unfold s', shown.
  assert (Ha : (a < length (heap s))%nat)
    by (eapply lookup_lt_Some; eassumption).
  rewrite (tab4_run inp s a df Hname Hobj). cbn [fst snd heap globals page].
  destruct (String.eqb (habit inp) "Physical_Activity_Hours");
    cbn [fst snd].
  - split; [reflexivity |]. split.
    { apply list_lookup_insert_eq. rewrite length_app. lia. }
    split.
    { rewrite list_lookup_insert_ne by lia.
      now rewrite lookup_app_r, Nat.sub_diag by lia. }
    split; [rewrite length_insert, length_app; simpl; lia |].
    split; reflexivity.
  - split; [reflexivity |]. split; [now apply lookup_app_l_Some |].
    split; [now rewrite lookup_app_r, Nat.sub_diag by lia |].
    split; [rewrite length_app; simpl; lia |].
    split; reflexivity.
Qed.

Lemma tab4_on_its_own_witness :
  let s := {| heap := [ODataFrame scenario];
              globals := {["filtered_data" := 0%nat]};
              page := [] |} in
  let inp := {| countries := []; genders := []; age_range := (0, 0);
                health_metric := "BMI";
                habit := "Physical_Activity_Hours" |} in
  globals s !! "filtered_data" = Some 0%nat
  /\ heap s !! 0%nat = Some (ODataFrame scenario)
  /\ (tab4 inp s).1 = inr tt
  /\ exists df : DataFrame,
       heap (tab4 inp s).2 !! 0%nat = Some (ODataFrame df)
       /\ Activity_Bins df = Some [Some "2-4h"; Some "2-4h"; Some "2-4h"].
Proof.
  intros s inp.
  assert (Hname : globals s !! "filtered_data" = Some 0%nat) by reflexivity.
  assert (Hobj : heap s !! 0%nat = Some (ODataFrame scenario)) by reflexivity.
  split; [exact Hname |]. split; [exact Hobj |].
  destruct (tab4_on_its_own inp s 0 scenario Hname Hobj)
    as (Hend & Hframe & _).
  split; [exact Hend |]. eexists. split; [exact Hframe | reflexivity].
Defined.

(** ** Filtering twice *)

Lemma filter_filter_implied {A : Type} (f g : A -> bool) (l : list A) :
  (forall x : A, f x = true -> g x = true) ->
  List.filter f (List.filter g l) = List.filter f l.
Proof.
  intros Himp. induction l as [|x l IH]; [reflexivity |].
  cbn [List.filter]. destruct (g x) eqn:Hg.
  - cbn [List.filter]. destruct (f x); now rewrite IH.
  - destruct (f x) eqn:Hf; [| exact IH].
    apply Himp in Hf. congruence.
Qed.

(** X16: filtering composes.  Filtering the result of a filter again with
    a selection that is no wider (fewer countries, fewer genders, a
    narrower age range) gives what that selection gives on the loaded
    table; in particular filtering twice with the same selection changes
    nothing. *)
Theorem filter_composes (data : DataFrame) (cs cs' gs gs' : list string)
    (a a' b b' : Z) :
  records (filtered_data (filtered_data data cs gs (a, b)) cs gs (a, b))
  = records (filtered_data data cs gs (a, b))
  /\ (cs ⊆ cs' -> gs ⊆ gs' -> a' <= a -> b <= b' ->
      records (filtered_data (filtered_data data cs' gs' (a', b'))
                             cs gs (a, b))
      = records (filtered_data data cs gs (a, b))).
Proof.
  rewrite !(records_filtered_data (filtered_data _ _ _ _)).
  rewrite !records_filtered_data. split.
  - now apply filter_filter_implied.
  - intros Hcs Hgs Ha Hb. apply filter_filter_implied. intros r.
    rewrite !keeps_spec. intros (Hc & Hg & Hage).
    split; [apply Hcs, Hc |]. split; [apply Hgs, Hg | lia].
Qed.
